(** * root-detector: the traversal and classification pipeline of main.go

    The program walks namespaces, pods and containers of a Kubernetes
    cluster, runs [whoami] through a streaming exec in every container and
    sorts the containers into "runs as root" and "probe failed".

    The cluster is the environment of the program.  It is modelled as an
    abstract world state with one handler per client-go call the program
    makes; every call returns its answer together with the next world, so a
    cluster that changes while it is being walked is covered.  The program
    itself lives in a small monad that threads the world and writes the
    sequence of the calls made (with their answers) and of the lines printed.

    Go values: a [string] is a sequence of bytes, here [String.string]; a
    slice is a [list] (a nil slice and an empty slice both have length 0 and
    range the same way, both are [[]]); an [error] is identified with its
    message, [None] being Go's nil error; a function returning [(T, error)]
    returns a pair. *)

From Stdlib Require Import String Ascii List Bool Arith Lia.
Import ListNotations.
Open Scope string_scope.
Open Scope list_scope.

Set Implicit Arguments.

(** ** Strings *)

(** The line feed written [\n] in the Go source. *)
Definition LF : string := String (ascii_of_nat 10) EmptyString.

(** strings.HasPrefix *)
Fixpoint HasPrefix (s prefix : string) : bool :=
  match prefix, s with
  | EmptyString, _ => true
  | String _ _, EmptyString => false
  | String p prefix', String c s' => Ascii.eqb c p && HasPrefix s' prefix'
  end.

(** strings.Contains: [substr] occurs in [s] at some offset. *)
Fixpoint Contains (s substr : string) : bool :=
  HasPrefix s substr ||
  match s with
  | EmptyString => false
  | String _ s' => Contains s' substr
  end.

(** ** Data model *)

(** Go's [error], by its message. *)
Definition error : Type := string.

(** ContainerInfo stores information about a container. *)
Record ContainerInfo : Type := {
  Namespace : string;
  PodName : string;
  Container : string;
  CommandExec : string
}.

(** The identity of a container in the cluster. *)
Definition identity (r : ContainerInfo) : string * string * string :=
  (Namespace r, PodName r, Container r).

(** The parts of the k8s.io/api/core/v1 objects the program reads. *)
Record V1Namespace : Type := { ns_Name : string }.

Record V1Container : Type := { c_Name : string; c_Image : string }.

Record V1PodSpec : Type := {
  spec_InitContainers : list V1Container;
  spec_Containers : list V1Container
}.

Record V1Pod : Type := { pod_Name : string; pod_Spec : V1PodSpec }.

(** v1.PodExecOptions *)
Record PodExecOptions : Type := {
  opt_Command : list string;
  opt_Container : string;
  opt_Stdin : bool;
  opt_Stdout : bool;
  opt_Stderr : bool;
  opt_TTY : bool
}.

(** The REST request built for the exec subresource. *)
Record Request : Type := {
  req_verb : string;
  req_resource : string;
  req_name : string;
  req_namespace : string;
  req_subresource : string;
  req_params : PodExecOptions
}.

(** remotecommand.StreamOptions: which local streams are attached. *)
Record StreamOptions : Type := {
  so_Stdin : bool;
  so_Stdout : bool;
  so_Stderr : bool;
  so_Tty : bool
}.

(** What one [Stream] call did: the text written to the two builders and
    the error it returned. *)
Record StreamResult : Type := {
  written_stdout : string;
  written_stderr : string;
  stream_err : option error
}.

(** Answer of a list or get call of the clientset. *)
Inductive reply (A : Type) : Type :=
| Served (a : A)
| Failed (err : error).

Arguments Served {A} a.
Arguments Failed {A} err.

(** The calls the program makes on the clientset and the transport; each
    answers from the current world and yields the next one. *)
Record ClusterAPI (World : Type) : Type := {
  Namespaces_List : World -> reply (list V1Namespace) * World;
  Pods_List : string -> World -> reply (list V1Pod) * World;
  Pods_Get : string -> string -> World -> reply V1Pod * World;
  NewSPDYExecutor : string -> Request -> World -> option error * World;
  Stream : Request -> StreamOptions -> World -> StreamResult * World
}.

(** What an observer of a run sees, in order. *)
Inductive Event : Type :=
| EvNamespacesList (r : reply (list V1Namespace))
| EvPodsList (namespace : string) (r : reply (list V1Pod))
| EvPodsGet (namespace podName : string) (r : reply V1Pod)
| EvNewSPDYExecutor (method : string) (req : Request) (r : option error)
| EvStream (req : Request) (opts : StreamOptions) (r : StreamResult)
| EvPrintf (text : string).

(** ** The membership predicate *)

(** containsString checks if a string is present in a slice of strings. *)
Fixpoint containsString (slice : list string) (str : string) : bool :=
  match slice with
  | [] => false
  | s :: rest => if String.eqb s str then true else containsString rest str
  end.

(** ** The monad of the program: world passing and a trace *)

Section Program.

Variable World : Type.
Variable api : ClusterAPI World.

Definition M (A : Type) : Type := World -> A * World * list Event.

Definition ret {A : Type} (a : A) : M A := fun w => (a, w, []).

Definition bind {A B : Type} (m : M A) (f : A -> M B) : M B :=
  fun w =>
    let '(a, w1, t1) := m w in
    let '(b, w2, t2) := f a w1 in
    (b, w2, t1 ++ t2).

Notation "x <- m ;; k" := (bind m (fun x => k))
  (at level 61, m at next level, right associativity).
Notation "' p <- m ;; k" := (bind m (fun x => let 'p := x in k))
  (at level 61, p pattern, m at next level, right associativity).
Notation "m ;;; k" := (bind m (fun _ => k))
  (at level 61, right associativity).

Definition result {A : Type} (x : A * World * list Event) : A := fst (fst x).
Definition world_after {A : Type} (x : A * World * list Event) : World := snd (fst x).
Definition trace {A : Type} (x : A * World * list Event) : list Event := snd x.

(** One call on the cluster, recorded with its answer. *)
Definition call {A : Type} (h : World -> A * World) (ev : A -> Event) : M A :=
  fun w => let '(a, w') := h w in (a, w', [ev a]).

(** fmt.Printf, after formatting. *)
Definition Printf (text : string) : M unit := fun w => (tt, w, [EvPrintf text]).

(** [for _, x := range l { body }] over a loop-carried state [s]. *)
Fixpoint range_loop {A S : Type} (body : A -> S -> M S) (l : list A) (s : S) : M S :=
  match l with
  | [] => ret s
  | x :: rest => s' <- body x s ;; range_loop body rest s'
  end.

(** ** The enumerators *)

(** listNamespaces lists all non-excluded namespaces in the cluster. *)
Definition listNamespaces (excludeNamespaces : list string) : M (list string * option error) :=
  r <- call (Namespaces_List api) EvNamespacesList ;;
  match r with
  | Failed err => ret ([], Some err)
  | Served items =>
      ret (fold_left
             (fun namespaces ns =>
                if negb (containsString excludeNamespaces (ns_Name ns))
                then namespaces ++ [ns_Name ns]
                else namespaces)
             items [], None)
  end.

(** listPods lists all pods in the specified namespace. *)
Definition listPods (namespace : string) : M (list string * option error) :=
  r <- call (Pods_List api namespace) (EvPodsList namespace) ;;
  match r with
  | Failed err => ret ([], Some err)
  | Served items =>
      ret (fold_left (fun podNames pod => podNames ++ [pod_Name pod]) items [], None)
  end.

(** listContainers lists all containers in the specified pod. *)
Definition listContainers (namespace podName : string) : M (list string * option error) :=
  r <- call (Pods_Get api namespace podName) (EvPodsGet namespace podName) ;;
  match r with
  | Failed err => ret ([], Some err)
  | Served pod =>
      ret (fold_left (fun containerNames container => containerNames ++ [c_Name container])
             (spec_Containers (pod_Spec pod)) [], None)
  end.

(** ** The remote probe executor *)

(** The request and the stream options execCommandInContainer builds. *)
Definition exec_request (namespace podName containerName command : string) : Request :=
  let cmd := ["sh"; "-c"; command] in
  {| req_verb := "POST";
     req_resource := "pods";
     req_name := podName;
     req_namespace := namespace;
     req_subresource := "exec";
     req_params :=
       {| opt_Command := cmd;
          opt_Container := containerName;
          opt_Stdin := false;
          opt_Stdout := true;
          opt_Stderr := true;
          opt_TTY := false |} |}.

Definition exec_streams : StreamOptions :=
  {| so_Stdin := false; so_Stdout := true; so_Stderr := true; so_Tty := false |}.

(** execCommandInContainer executes a command in the specified container
    and returns the output. *)
Definition execCommandInContainer (namespace podName containerName command : string)
  : M (string * option error) :=
  let req := exec_request namespace podName containerName command in
  err <- call (NewSPDYExecutor api "POST" req) (EvNewSPDYExecutor "POST" req) ;;
  match err with
  | Some err => ret ("", Some err)
  | None =>
      r <- call (Stream api req exec_streams) (EvStream req exec_streams) ;;
      match stream_err r with
      | Some err => ret ("", Some err)
      | None => ret (written_stdout r, None)
      end
  end.

(** ** Traversal and classification *)

(** The two accumulators of the traversal: rootContainers, errorContainers. *)
Definition Acc : Type := (list ContainerInfo * list ContainerInfo)%type.

(** Body of the loop over the containers of one pod. *)
Definition container_body (namespace pod container : string) (acc : Acc) : M Acc :=
  let '(rootContainers, errorContainers) := acc in
  let command := "whoami" in
  '(output, err) <- execCommandInContainer namespace pod container command ;;
  match err with
  | Some err =>
      Printf ("Error running 'whoami' command in container " ++ container
              ++ ": " ++ err ++ LF) ;;;
      ret (rootContainers,
           errorContainers ++ [{| Namespace := namespace; PodName := pod;
                                  Container := container; CommandExec := command |}])
  | None =>
      if Contains output "root"
      then ret (rootContainers ++ [{| Namespace := namespace; PodName := pod;
                                      Container := container; CommandExec := command |}],
                errorContainers)
      else ret (rootContainers, errorContainers)
  end.

(** Body of the loop over the pods of one namespace. *)
Definition pod_body (namespace pod : string) (acc : Acc) : M Acc :=
  '(containers, err) <- listContainers namespace pod ;;
  match err with
  | Some err =>
      Printf ("Error listing containers in pod " ++ pod ++ ": " ++ err ++ LF) ;;;
      ret acc
  | None => range_loop (container_body namespace pod) containers acc
  end.

(** Body of the loop over the namespaces. *)
Definition namespace_body (namespace : string) (acc : Acc) : M Acc :=
  '(pods, err) <- listPods namespace ;;
  match err with
  | Some err =>
      Printf ("Error listing pods in namespace " ++ namespace ++ ": " ++ err ++ LF) ;;;
      ret acc
  | None => range_loop (pod_body namespace) pods acc
  end.

(** The exclusion set findContainersWithErrors passes to listNamespaces. *)
Definition excludeNamespaces : list string :=
  ["kube-system"; "kube-public"; "kube-node-lease"].

(** findContainersWithErrors finds root containers and lists containers
    where the command errored. *)
Definition findContainersWithErrors
  : M (list ContainerInfo * list ContainerInfo * option error) :=
  '(namespaces, err) <- listNamespaces excludeNamespaces ;;
  match err with
  | Some err => ret ([], [], Some err)
  | None =>
      '(rootContainers, errorContainers) <- range_loop namespace_body namespaces ([], []) ;;
      ret (rootContainers, errorContainers, None)
  end.

End Program.

Arguments M World A : clear implicits.

(** A run from a given world: the value returned, and what was observed. *)
Definition returned {World A : Type} (m : M World A) (w : World) : A := result (m w).
Definition observed {World A : Type} (m : M World A) (w : World) : list Event := trace (m w).

(** ** Reading a trace *)

(** The record the traversal builds for the container a request targets. *)
Definition record_of (req : Request) : ContainerInfo :=
  {| Namespace := req_namespace req;
     PodName := req_name req;
     Container := opt_Container (req_params req);
     CommandExec := nth 2 (opt_Command (req_params req)) "" |}.

(** A stream that ended without error and wrote [root] somewhere on its
    standard output. *)
Definition root_of_event (e : Event) : list ContainerInfo :=
  match e with
  | EvStream req _ r =>
      match stream_err r with
      | None => if Contains (written_stdout r) "root" then [record_of req] else []
      | Some _ => []
      end
  | _ => []
  end.

(** A probe that failed: the executor could not be built, or the stream
    returned an error. *)
Definition error_of_event (e : Event) : list ContainerInfo :=
  match e with
  | EvNewSPDYExecutor _ req (Some _) => [record_of req]
  | EvStream req _ r =>
      match stream_err r with
      | Some _ => [record_of req]
      | None => []
      end
  | _ => []
  end.

(** The namespaces whose pods were listed, in order. *)
Definition pods_list_calls (e : Event) : list string :=
  match e with
  | EvPodsList namespace _ => [namespace]
  | _ => []
  end.

(** The pods a successful pod listing announced. *)
Definition pods_announced (e : Event) : list (string * string) :=
  match e with
  | EvPodsList namespace (Served items) => map (fun p => (namespace, pod_Name p)) items
  | _ => []
  end.

(** The pods that were fetched for their containers, in order. *)
Definition pods_get_calls (e : Event) : list (string * string) :=
  match e with
  | EvPodsGet namespace podName _ => [(namespace, podName)]
  | _ => []
  end.

(** The containers a successful pod fetch announced. *)
Definition containers_announced (e : Event) : list (string * string * string) :=
  match e with
  | EvPodsGet namespace podName (Served pod) =>
      map (fun c => (namespace, podName, c_Name c)) (spec_Containers (pod_Spec pod))
  | _ => []
  end.

(** The containers a probe was started for, in order. *)
Definition probe_calls (e : Event) : list (string * string * string) :=
  match e with
  | EvNewSPDYExecutor _ req _ => [identity (record_of req)]
  | _ => []
  end.

(** The namespace an event is about, if any. *)
Definition event_namespace (e : Event) : option string :=
  match e with
  | EvNamespacesList _ => None
  | EvPodsList namespace _ => Some namespace
  | EvPodsGet namespace _ _ => Some namespace
  | EvNewSPDYExecutor _ req _ => Some (req_namespace req)
  | EvStream req _ _ => Some (req_namespace req)
  | EvPrintf _ => None
  end.

(** The same cluster, with the text every stream writes to standard error
    replaced through [f]. *)
Definition map_stderr {World : Type} (f : string -> string) (api : ClusterAPI World)
  : ClusterAPI World :=
  {| Namespaces_List := Namespaces_List api;
     Pods_List := Pods_List api;
     Pods_Get := Pods_Get api;
     NewSPDYExecutor := NewSPDYExecutor api;
     Stream := fun req opts w =>
       let '(r, w') := Stream api req opts w in
       ({| written_stdout := written_stdout r;
           written_stderr := f (written_stderr r);
           stream_err := stream_err r |}, w') |}.

(** ** A cluster that stands still

    A description of a cluster whose content does not change while it is
    walked, and the handlers that serve it.  A namespace may refuse the
    listing of its pods, a listed pod may be gone when it is fetched, and a
    container answers an exec by running the program named first in the
    command vector: [sh -c whoami] and [whoami] print the user, and a program
    the image does not ship cannot be started. *)

Record ContainerState : Type := {
  cs_name : string;
  cs_user : string;
  cs_has_sh : bool
}.

Record PodState : Type := {
  ps_name : string;
  ps_gone : bool;
  ps_init : list ContainerState;
  ps_containers : list ContainerState
}.

Record NamespaceState : Type := {
  nss_name : string;
  nss_forbidden : bool;
  nss_pods : list PodState
}.

Definition Cluster : Type := list NamespaceState.

Definition find_namespace (c : Cluster) (namespace : string) : option NamespaceState :=
  find (fun n => String.eqb (nss_name n) namespace) c.

Definition find_pod (c : Cluster) (namespace podName : string) : option PodState :=
  match find_namespace c namespace with
  | Some n => find (fun p => String.eqb (ps_name p) podName) (nss_pods n)
  | None => None
  end.

Definition find_container (c : Cluster) (namespace podName containerName : string)
  : option ContainerState :=
  match find_pod c namespace podName with
  | Some p => find (fun k => String.eqb (cs_name k) containerName) (ps_containers p)
  | None => None
  end.

Definition to_container (k : ContainerState) : V1Container :=
  {| c_Name := cs_name k; c_Image := "busybox" |}.

Definition to_pod (p : PodState) : V1Pod :=
  {| pod_Name := ps_name p;
     pod_Spec := {| spec_InitContainers := map to_container (ps_init p);
                    spec_Containers := map to_container (ps_containers p) |} |}.

(** What the container runtime does with a command vector: it starts the
    program named first, if the image ships it. *)
Definition run_in_container (k : ContainerState) (argv : list string) : StreamResult :=
  let prints_user :=
    {| written_stdout := cs_user k ++ LF; written_stderr := ""; stream_err := None |} in
  let unknown :=
    {| written_stdout := ""; written_stderr := "not found" ++ LF;
       stream_err := Some "command terminated with exit code 127" |} in
  let cannot_start :=
    {| written_stdout := ""; written_stderr := "";
       stream_err := Some "executable file not found" |} in
  match argv with
  | [] => cannot_start
  | program :: args =>
      if String.eqb program "whoami" then prints_user
      else if String.eqb program "sh" then
        if cs_has_sh k
        then if list_eq_dec string_dec args ["-c"; "whoami"] then prints_user else unknown
        else cannot_start
      else cannot_start
  end.

Definition static_api (c : Cluster) : ClusterAPI unit :=
  {| Namespaces_List := fun w =>
       (Served (map (fun n => {| ns_Name := nss_name n |}) c), w);
     Pods_List := fun namespace w =>
       match find_namespace c namespace with
       | Some n =>
           if nss_forbidden n
           then (Failed "pods is forbidden", w)
           else (Served (map to_pod (nss_pods n)), w)
       | None => (Served [], w)
       end;
     Pods_Get := fun namespace podName w =>
       match find_pod c namespace podName with
       | Some p => if ps_gone p then (Failed "pod not found", w) else (Served (to_pod p), w)
       | None => (Failed "pod not found", w)
       end;
     NewSPDYExecutor := fun _ _ w => (None, w);
     Stream := fun req _ w =>
       match find_container c (req_namespace req) (req_name req)
               (opt_Container (req_params req)) with
       | Some k => (run_in_container k (opt_Command (req_params req)), w)
       | None =>
           ({| written_stdout := ""; written_stderr := "";
               stream_err := Some "container not found" |}, w)
       end |}.

(** The cluster of the end-to-end scenario: [default] holds one pod with one
    container running as root; [kube-system] holds whatever it holds. *)
Definition busybox : ContainerState :=
  {| cs_name := "busybox"; cs_user := "root"; cs_has_sh := true |}.

Definition scenario_cluster (kube_system : list PodState) : Cluster :=
  [ {| nss_name := "default"; nss_forbidden := false;
       nss_pods := [ {| ps_name := "busybox-pod"; ps_gone := false;
                        ps_init := []; ps_containers := [busybox] |} ] |};
    {| nss_name := "kube-system"; nss_forbidden := false; nss_pods := kube_system |} ].

(** A cluster with one of each kind of trouble: a namespace that refuses
    the listing of its pods, a pod that is gone when fetched, a container
    without a shell, a container that is not root, and two that are. *)
Definition mixed_cluster : Cluster :=
  [ {| nss_name := "locked"; nss_forbidden := true; nss_pods := [] |};
    {| nss_name := "kube-public"; nss_forbidden := false; nss_pods := [] |};
    {| nss_name := "apps"; nss_forbidden := false;
       nss_pods :=
         [ {| ps_name := "vanished"; ps_gone := true; ps_init := [];
              ps_containers := [busybox] |};
           {| ps_name := "web"; ps_gone := false;
              ps_init := [ {| cs_name := "setup"; cs_user := "root"; cs_has_sh := true |} ];
              ps_containers :=
                [ {| cs_name := "distroless"; cs_user := "root"; cs_has_sh := false |};
                  {| cs_name := "nginx"; cs_user := "www-data"; cs_has_sh := true |};
                  {| cs_name := "sidecar"; cs_user := "root"; cs_has_sh := true |} ] |} ] |};
    {| nss_name := "batch"; nss_forbidden := false;
       nss_pods :=
         [ {| ps_name := "job"; ps_gone := false; ps_init := [];
              ps_containers :=
                [ {| cs_name := "worker"; cs_user := "nonroot"; cs_has_sh := true |} ] |} ] |} ].

(** A cluster whose namespace listing fails. *)
Definition unreachable_api : ClusterAPI unit :=
  {| Namespaces_List := fun w => (Failed "connection refused", w);
     Pods_List := Pods_List (static_api mixed_cluster);
     Pods_Get := Pods_Get (static_api mixed_cluster);
     NewSPDYExecutor := NewSPDYExecutor (static_api mixed_cluster);
     Stream := Stream (static_api mixed_cluster) |}.

(** An answer no Kubernetes cluster gives: a pod that lists the container
    name [app] twice, over a transport whose first stream prints [root] and
    whose later streams break.  The world counts the streams so far. *)
Definition repeating_api : ClusterAPI nat :=
  {| Namespaces_List := fun w => (Served [ {| ns_Name := "default" |} ], w);
     Pods_List := fun _ w =>
       (Served [ {| pod_Name := "twin";
                    pod_Spec := {| spec_InitContainers := []; spec_Containers := [] |} |} ], w);
     Pods_Get := fun _ podName w =>
       (Served {| pod_Name := podName;
                  pod_Spec := {| spec_InitContainers := [];
                                 spec_Containers :=
                                   [ {| c_Name := "app"; c_Image := "busybox" |};
                                     {| c_Name := "app"; c_Image := "busybox" |} ] |} |}, w);
     NewSPDYExecutor := fun _ _ w => (None, w);
     Stream := fun _ _ w =>
       match w with
       | O => ({| written_stdout := "root" ++ LF; written_stderr := "";
                  stream_err := None |}, S w)
       | S _ => ({| written_stdout := ""; written_stderr := "";
                    stream_err := Some "connection reset" |}, S w)
       end |}.

(** The accumulators grow by exactly the records of the events seen, and
    every such record names the probe command. *)
Definition grows (acc : Acc) (tr : list Event) (acc' : Acc) : Prop :=
  acc' = (fst acc ++ flat_map root_of_event tr, snd acc ++ flat_map error_of_event tr)
  /\ Forall (fun r => CommandExec r = "whoami")
            (flat_map root_of_event tr ++ flat_map error_of_event tr).

(** The identities an event puts on record, in either list. *)
Definition recorded (e : Event) : list (string * string * string) :=
  map identity (root_of_event e ++ error_of_event e).


(** ** More ways to read a trace *)

(** The text an event writes to standard output. *)
Definition printed (e : Event) : list string :=
  match e with
  | EvPrintf text => [text]
  | _ => []
  end.

(** The line the traversal prints about a call that failed. *)
Definition failure_line (e : Event) : list string :=
  match e with
  | EvPodsList namespace (Failed err) =>
      [("Error listing pods in namespace " ++ namespace ++ ": " ++ err ++ LF)%string]
  | EvPodsGet _ podName (Failed err) =>
      [("Error listing containers in pod " ++ podName ++ ": " ++ err ++ LF)%string]
  | EvNewSPDYExecutor _ req (Some err) =>
      [("Error running 'whoami' command in container " ++ opt_Container (req_params req)
        ++ ": " ++ err ++ LF)%string]
  | EvStream req _ r =>
      match stream_err r with
      | Some err =>
          [("Error running 'whoami' command in container " ++ opt_Container (req_params req)
            ++ ": " ++ err ++ LF)%string]
      | None => []
      end
  | _ => []
  end.

(** An event of the walk through one namespace: a call about that
    namespace, or a line printed. *)
Definition within (namespace : string) (e : Event) : Prop :=
  event_namespace e = Some namespace \/ exists text, e = EvPrintf text.

(** The event is about a namespace of the exclusion set of the traversal. *)
Definition touches_excluded (e : Event) : bool :=
  match event_namespace e with
  | Some namespace => containsString excludeNamespaces namespace
  | None => false
  end.

Definition is_namespaces_list (e : Event) : bool :=
  match e with
  | EvNamespacesList _ => true
  | _ => false
  end.

(** ** The process: authentication, exit status and report *)

(** Where the program runs: the home directory, the path join of
    path/filepath, the loading of a kubeconfig file, the construction of a
    clientset, and the cluster a clientset and its configuration reach. *)
Record Host (World Config Clientset : Type) : Type := {
  HomeDir : World -> string;
  filepath_Join : list string -> string;
  BuildConfigFromFlags : string -> string -> World -> reply Config * World;
  NewForConfig : Config -> World -> reply Clientset * World;
  session : Clientset -> Config -> ClusterAPI World
}.

(** What an observer of the process sees: the two steps of the
    authentication, and everything the traversal and the report do. *)
Inductive HostEvent : Type :=
| HvBuildConfigFromFlags (masterUrl kubeconfigPath : string) (err : option error)
| HvNewForConfig (err : option error)
| HvCluster (e : Event).

Definition failure {A : Type} (r : reply A) : option error :=
  match r with
  | Served _ => None
  | Failed err => Some err
  end.

(** What the process wrote to standard output. *)
Definition stdout_of (e : HostEvent) : list string :=
  match e with
  | HvCluster e => printed e
  | _ => []
  end.

(** The calls the process made on the cluster. *)
Definition cluster_calls (e : HostEvent) : list Event :=
  match e with
  | HvCluster (EvPrintf _) => []
  | HvCluster e => [e]
  | _ => []
  end.

Section Process.

Variables World Config Clientset : Type.
Variable host : Host World Config Clientset.

Definition Proc (A : Type) : Type := World -> A * World * list HostEvent.

Definition pret {A : Type} (a : A) : Proc A := fun w => (a, w, []).

Definition pbind {A B : Type} (m : Proc A) (f : A -> Proc B) : Proc B :=
  fun w =>
    let '(a, w1, t1) := m w in
    let '(b, w2, t2) := f a w1 in
    (b, w2, t1 ++ t2).

(** A computation on the cluster, run inside the process. *)
Definition lift {A : Type} (m : M World A) : Proc A :=
  fun w => let '(a, w', t) := m w in (a, w', map HvCluster t).

Definition pcall {A : Type} (h : World -> A * World) (ev : A -> HostEvent) : Proc A :=
  fun w => let '(a, w') := h w in (a, w', [ev a]).

(** fmt.Println of one string. *)
Definition Println (text : string) : M World unit := Printf (text ++ LF).

(** authenticateToCluster authenticates to the Kubernetes cluster and
    returns a clientset and config. *)
Definition authenticateToCluster : Proc (reply (Clientset * Config)) :=
  fun w =>
    let kubeconfigPath := filepath_Join host [HomeDir host w; ".kube"; "config"] in
    pbind (pcall (BuildConfigFromFlags host "" kubeconfigPath)
             (fun r => HvBuildConfigFromFlags "" kubeconfigPath (failure r)))
      (fun r =>
         match r with
         | Failed err => pret (Failed err)
         | Served config =>
             pbind (pcall (NewForConfig host config) (fun r => HvNewForConfig (failure r)))
               (fun r =>
                  match r with
                  | Failed err => pret (Failed err)
                  | Served clientset => pret (Served (clientset, config))
                  end)
         end) w.

(** One line of the report. *)
Definition report_line (c : ContainerInfo) : string :=
  "Namespace: " ++ Namespace c ++ ", Pod: " ++ PodName c
  ++ ", Container: " ++ Container c ++ ", CommandExec: " ++ CommandExec c ++ LF.

(** The report main prints after a traversal. *)
Definition print_report (rootContainers errorContainers : list ContainerInfo)
  : M World unit :=
  bind (Println (LF ++ "Root Containers:")) (fun _ =>
  bind (range_loop (fun rootContainer (_ : unit) => Printf (report_line rootContainer))
          rootContainers tt) (fun _ =>
  bind (Println (LF ++ "Containers with Errors:")) (fun _ =>
  range_loop (fun errorContainer (_ : unit) => Printf (report_line errorContainer))
    errorContainers tt))).

(** main; the value is the exit status of the process, 1 where the source
    calls os.Exit(1) and 0 where main returns. *)
Definition main : Proc nat :=
  pbind authenticateToCluster (fun auth =>
  match auth with
  | Failed err =>
      pbind (lift (Printf ("Error authenticating to the cluster: " ++ err ++ LF)))
        (fun _ => pret 1)
  | Served (clientset, config) =>
      pbind (lift (findContainersWithErrors (session host clientset config)))
        (fun found =>
           let '(rootContainers, errorContainers, err) := found in
           match err with
           | Some err =>
               pbind (lift (Printf ("Error finding containers: " ++ err ++ LF)))
                 (fun _ => pret 1)
           | None =>
               pbind (lift (print_report rootContainers errorContainers))
                 (fun _ => pret 0)
           end)
  end).

End Process.

(** A host with a fixed home directory whose kubeconfig either loads or
    does not, in front of a cluster that stands still. *)
Definition static_host (kubeconfig : option error) (c : Cluster) : Host unit unit unit :=
  {| HomeDir := fun _ => "/home/auditor";
     filepath_Join := String.concat "/";
     BuildConfigFromFlags := fun _ _ w =>
       (match kubeconfig with Some err => Failed err | None => Served tt end, w);
     NewForConfig := fun _ w => (Served tt, w);
     session := fun _ _ => static_api c |}.

(** A cluster that holds system namespaces only. *)
Definition system_only_cluster : Cluster :=
  [ {| nss_name := "kube-system"; nss_forbidden := false;
       nss_pods := [ {| ps_name := "coredns"; ps_gone := false; ps_init := [];
                        ps_containers := [busybox] |} ] |};
    {| nss_name := "kube-public"; nss_forbidden := false; nss_pods := [] |} ].

(** * Properties *)

Example mixed_cluster_run :
  returned (findContainersWithErrors (static_api mixed_cluster)) tt
  = ([ {| Namespace := "apps"; PodName := "web"; Container := "sidecar"; CommandExec := "whoami" |};
       {| Namespace := "batch"; PodName := "job"; Container := "worker"; CommandExec := "whoami" |} ],
     [ {| Namespace := "apps"; PodName := "web"; Container := "distroless"; CommandExec := "whoami" |} ],
     None).
Proof. vm_compute. reflexivity. Qed.

Example unreachable_cluster_run :
  findContainersWithErrors unreachable_api tt
  = (([], [], Some "connection refused"), tt, [EvNamespacesList (Failed "connection refused")]).
Proof. vm_compute. reflexivity. Qed.

Example permissive_match :
  Contains ("root" ++ LF) "root" = true /\
  Contains ("nonroot" ++ LF) "root" = true /\
  Contains ("www-data" ++ LF) "root" = false /\
  Contains ("Root" ++ LF) "root" = false.
Proof. repeat split. Qed.

(** ** Strings and membership *)

Lemma HasPrefix_spec (s p : string) :
  HasPrefix s p = true <-> exists rest, s = (p ++ rest)%string.
Proof.
  revert s. induction p as [|a p IH]; intros s; simpl.
  - split; [intros _; now exists s | intros _; now destruct s].
  - destruct s as [|c s]; simpl.
    + split; [discriminate | intros [rest H]; discriminate].
    + rewrite andb_true_iff, Ascii.eqb_eq, IH. split.
      * intros [-> [rest ->]]. now exists rest.
      * intros [rest H]. injection H as -> ->. split; [reflexivity | now exists rest].
Qed.

(** [Contains] is the substring relation. *)
Lemma Contains_unfold (s sub : string) :
  Contains s sub =
  HasPrefix s sub || match s with EmptyString => false | String _ s' => Contains s' sub end.
Proof. destruct s; reflexivity. Qed.

(** [Contains] is the substring relation. *)
Lemma Contains_spec (s sub : string) :
  Contains s sub = true <-> exists before after, s = (before ++ sub ++ after)%string.
Proof.
  induction s as [|c s IH]; rewrite Contains_unfold, orb_true_iff, HasPrefix_spec.
  - split.
    + intros [[rest H] | H]; [now exists "", rest | discriminate].
    + intros [before [after H]]. left.
      destruct before; [now exists after | discriminate].
  - rewrite IH. split.
    + intros [[rest H] | [before [after H]]].
      * now exists "", rest.
      * exists (String c before), after. simpl. now rewrite H.
    + intros [before [after H]]. destruct before as [|b before].
      * left. now exists after.
      * right. simpl in H. injection H as _ H. now exists before, after.
Qed.

Lemma containsString_In (slice : list string) (str : string) :
  containsString slice str = true <-> In str slice.
Proof.
  induction slice as [|s rest IH]; simpl.
  - split; [discriminate | contradiction].
  - destruct (String.eqb_spec s str) as [E | N].
    + split; [intros _; now left | reflexivity].
    + rewrite IH. split; [now right | intros [E | H]; [contradiction | exact H]].
Qed.

Lemma containsString_false (slice : list string) (str : string) :
  containsString slice str = false <-> ~ In str slice.
Proof.
  rewrite <- containsString_In. destruct (containsString slice str); split; congruence.
Qed.

(** C9: containsString is a function of its two arguments alone and answers
    true exactly when the string is an element of the slice, compared byte
    for byte; so [grape] is not among apple, banana, cherry and date, [apple]
    is, and [Apple] is not. *)
Theorem containsString_membership :
  (forall slice str, containsString slice str = true <-> In str slice) /\
  containsString ["apple"; "banana"; "cherry"; "date"] "grape" = false /\
  containsString ["apple"; "banana"; "cherry"; "date"] "apple" = true /\
  containsString ["apple"; "banana"; "cherry"; "date"] "Apple" = false.
Proof.
  split; [exact containsString_In | repeat split].
Qed.

(** ** The loops that copy names out of a reply *)

Lemma append_loop_filter_map {A : Type} (keep : A -> bool) (name : A -> string)
      (items : list A) (start : list string) :
  fold_left (fun names x => if keep x then names ++ [name x] else names) items start
  = start ++ map name (filter keep items).
Proof.
  revert start. induction items as [|x items IH]; intros start; simpl.
  - now rewrite app_nil_r.
  - rewrite IH. destruct (keep x); simpl; [now rewrite <- app_assoc | reflexivity].
Qed.

Lemma append_loop_map {A : Type} (name : A -> string) (items : list A) (start : list string) :
  fold_left (fun names x => names ++ [name x]) items start = start ++ map name items.
Proof.
  revert start. induction items as [|x items IH]; intros start; simpl.
  - now rewrite app_nil_r.
  - rewrite IH. now rewrite <- app_assoc.
Qed.

Lemma map_filter_comm {A B : Type} (f : A -> B) (p : B -> bool) (l : list A) :
  map f (filter (fun x => p (f x)) l) = filter p (map f l).
Proof.
  induction l as [|x l IH]; simpl; [reflexivity|].
  destruct (p (f x)); simpl; now rewrite IH.
Qed.

Section Enumerators.

Variable World : Type.
Variable api : ClusterAPI World.

Lemma listNamespaces_run (excl : list string) (w : World) :
  listNamespaces api excl w =
  (match fst (Namespaces_List api w) with
   | Served items =>
       (filter (fun n => negb (containsString excl n)) (map ns_Name items), None)
   | Failed err => ([], Some err)
   end,
   snd (Namespaces_List api w),
   [EvNamespacesList (fst (Namespaces_List api w))]).
Proof.
  unfold listNamespaces, bind, call, ret.
  destruct (Namespaces_List api w) as [[items | err] w']; simpl; [|reflexivity].
  rewrite (append_loop_filter_map (fun ns => negb (containsString excl (ns_Name ns))) ns_Name).
  simpl. now rewrite (map_filter_comm ns_Name (fun n => negb (containsString excl n))).
Qed.

Lemma listPods_run (namespace : string) (w : World) :
  listPods api namespace w =
  (match fst (Pods_List api namespace w) with
   | Served items => (map pod_Name items, None)
   | Failed err => ([], Some err)
   end,
   snd (Pods_List api namespace w),
   [EvPodsList namespace (fst (Pods_List api namespace w))]).
Proof.
  unfold listPods, bind, call, ret.
  destruct (Pods_List api namespace w) as [[items | err] w']; simpl; [|reflexivity].
  now rewrite append_loop_map.
Qed.

Lemma listContainers_run (namespace podName : string) (w : World) :
  listContainers api namespace podName w =
  (match fst (Pods_Get api namespace podName w) with
   | Served pod => (map c_Name (spec_Containers (pod_Spec pod)), None)
   | Failed err => ([], Some err)
   end,
   snd (Pods_Get api namespace podName w),
   [EvPodsGet namespace podName (fst (Pods_Get api namespace podName w))]).
Proof.
  unfold listContainers, bind, call, ret.
  destruct (Pods_Get api namespace podName w) as [[pod | err] w']; simpl; [|reflexivity].
  now rewrite append_loop_map.
Qed.

Lemma execCommandInContainer_run (namespace podName containerName command : string) (w : World) :
  let req := exec_request namespace podName containerName command in
  execCommandInContainer api namespace podName containerName command w =
  match NewSPDYExecutor api "POST" req w with
  | (Some err, w1) => ("", Some err, w1, [EvNewSPDYExecutor "POST" req (Some err)])
  | (None, w1) =>
      let r := fst (Stream api req exec_streams w1) in
      (match stream_err r with
       | Some err => ("", Some err)
       | None => (written_stdout r, None)
       end,
       snd (Stream api req exec_streams w1),
       [EvNewSPDYExecutor "POST" req None; EvStream req exec_streams r])
  end.
Proof.
  unfold execCommandInContainer, bind, call, ret. simpl.
  destruct (NewSPDYExecutor api "POST" _ w) as [[err|] w1]; simpl; [reflexivity|].
  destruct (Stream api _ exec_streams w1) as [r w2]; simpl.
  destruct (stream_err r); reflexivity.
Qed.

End Enumerators.

(** C5: when the cluster serves the namespace list, listNamespaces returns
    the served names that are not in the exclusion set, in the served order
    and with no error; a name is returned exactly when it was served and is
    not, byte for byte, an element of the exclusion set; so no excluded name
    is ever returned, whatever else was served. *)
Theorem listNamespaces_exclusion :
  forall (World : Type) (api : ClusterAPI World) (excl : list string)
         (w w' : World) (items : list V1Namespace),
    Namespaces_List api w = (Served items, w') ->
    returned (listNamespaces api excl) w
      = (filter (fun n => negb (containsString excl n)) (map ns_Name items), None)
    /\ (forall n, In n (fst (returned (listNamespaces api excl) w))
                  <-> In n (map ns_Name items) /\ ~ In n excl)
    /\ (forall n, In n excl -> ~ In n (fst (returned (listNamespaces api excl) w))).
Proof.
  intros World api excl w w' items H.
  unfold returned. rewrite listNamespaces_run, H. cbn.
  assert (E : forall n, In n (filter (fun n => negb (containsString excl n)) (map ns_Name items))
                        <-> In n (map ns_Name items) /\ ~ In n excl).
  { intros n. rewrite filter_In, negb_true_iff, containsString_false. tauto. }
  split; [reflexivity | split].
  - exact E.
  - intros n Hn Hin. apply E in Hin. tauto.
Qed.

Lemma listNamespaces_exclusion_witness :
  Namespaces_List (static_api mixed_cluster) tt
    = (Served [ {| ns_Name := "locked" |}; {| ns_Name := "kube-public" |};
                {| ns_Name := "apps" |}; {| ns_Name := "batch" |} ], tt)
  /\ returned (listNamespaces (static_api mixed_cluster) excludeNamespaces) tt
     = (["locked"; "apps"; "batch"], None).
Proof.
  split; [reflexivity|].
  exact (proj1 (@listNamespaces_exclusion unit (static_api mixed_cluster) excludeNamespaces
                  tt tt _ eq_refl)).
Defined.

(** C8: when the cluster serves the pod, listContainers returns the names
    of the containers of the pod's spec, in their order and with no error;
    the init containers of the spec play no part: a name declared only among
    them is not returned. *)
Theorem listContainers_spec_containers :
  forall (World : Type) (api : ClusterAPI World) (namespace podName : string)
         (w w' : World) (pod : V1Pod),
    Pods_Get api namespace podName w = (Served pod, w') ->
    returned (listContainers api namespace podName) w
      = (map c_Name (spec_Containers (pod_Spec pod)), None)
    /\ (forall c, In c (spec_InitContainers (pod_Spec pod)) ->
                  ~ In (c_Name c) (map c_Name (spec_Containers (pod_Spec pod))) ->
                  ~ In (c_Name c) (fst (returned (listContainers api namespace podName) w))).
Proof.
  intros World api namespace podName w w' pod H.
  unfold returned. rewrite listContainers_run, H. cbn.
  split; [reflexivity | intros c _ Hc; exact Hc].
Qed.

Lemma listContainers_spec_containers_witness :
  fst (Pods_Get (static_api mixed_cluster) "apps" "web" tt)
    = Served {| pod_Name := "web";
                pod_Spec :=
                  {| spec_InitContainers := [ {| c_Name := "setup"; c_Image := "busybox" |} ];
                     spec_Containers :=
                       [ {| c_Name := "distroless"; c_Image := "busybox" |};
                         {| c_Name := "nginx"; c_Image := "busybox" |};
                         {| c_Name := "sidecar"; c_Image := "busybox" |} ] |} |}
  /\ returned (listContainers (static_api mixed_cluster) "apps" "web") tt
     = (["distroless"; "nginx"; "sidecar"], None)
  /\ ~ In "setup" (fst (returned (listContainers (static_api mixed_cluster) "apps" "web") tt)).
Proof.
  split; [reflexivity|].
  destruct (@listContainers_spec_containers unit (static_api mixed_cluster) "apps" "web"
              tt tt _ eq_refl) as [R I].
  split; [exact R|].
  apply (I {| c_Name := "setup"; c_Image := "busybox" |}).
  - cbn. now left.
  - cbn. intuition discriminate.
Defined.

(** ** The traversal, step by step *)

Section Traversal.

Variable World : Type.
Variable api : ClusterAPI World.

Lemma run_eta {A : Type} (x : A * World * list Event) :
  x = (result x, world_after x, trace x).
Proof. now destruct x as [[a w] t]. Qed.

Lemma range_loop_cons {A S : Type} (body : A -> S -> M World S) (x : A) (rest : list A)
      (s : S) (w : World) :
  range_loop body (x :: rest) s w =
  let b := body x s w in
  let l := range_loop body rest (result b) (world_after b) in
  (result l, world_after l, trace b ++ trace l).
Proof.
  cbn [range_loop]. unfold bind.
  destruct (body x s w) as [[s1 w1] t1]. cbn.
  now destruct (range_loop body rest s1 w1) as [[s2 w2] t2].
Qed.

(** A relation between the loop state before, the trace, and the loop state
    after that holds of no step and of two steps in a row when it holds of
    each, holds of a loop when it holds of its body. *)
Lemma range_loop_invariant {A S : Type} (P : S -> list Event -> S -> Prop)
      (body : A -> S -> M World S) (l : list A) :
  (forall s, P s [] s) ->
  (forall s1 t1 s2 t2 s3, P s1 t1 s2 -> P s2 t2 s3 -> P s1 (t1 ++ t2) s3) ->
  (forall x s w, In x l -> P s (trace (body x s w)) (result (body x s w))) ->
  forall s w, P s (trace (range_loop body l s w)) (result (range_loop body l s w)).
Proof.
  intros Hnil Happ. induction l as [|x rest IH]; intros Hbody s w.
  - apply Hnil.
  - rewrite range_loop_cons. cbn. eapply Happ.
    + apply Hbody. now left.
    + apply IH. intros y s' w' Hy. apply Hbody. now right.
Qed.

(** What a loop shows of some kind of event is what its rounds show, in order. *)
Lemma range_loop_projection {A S B : Type} (f : Event -> list B) (g : A -> list B)
      (body : A -> S -> M World S) (l : list A) :
  (forall x s w, flat_map f (trace (body x s w)) = g x) ->
  forall s w, flat_map f (trace (range_loop body l s w)) = flat_map g l.
Proof.
  intros Hbody. induction l as [|x rest IH]; intros s w.
  - reflexivity.
  - rewrite range_loop_cons. cbn. now rewrite flat_map_app, Hbody, IH.
Qed.

Lemma container_body_run (namespace pod container : string) (acc : Acc) (w : World) :
  let e := execCommandInContainer api namespace pod container "whoami" w in
  let record := {| Namespace := namespace; PodName := pod;
                   Container := container; CommandExec := "whoami" |} in
  container_body api namespace pod container acc w =
  match snd (result e) with
  | Some err =>
      ((fst acc, snd acc ++ [record]), world_after e,
       trace e ++ [EvPrintf ("Error running 'whoami' command in container " ++ container
                             ++ ": " ++ err ++ LF)])
  | None =>
      (if Contains (fst (result e)) "root"
       then (fst acc ++ [record], snd acc)
       else acc,
       world_after e, trace e)
  end.
Proof.
  destruct acc as [roots errs]. unfold container_body, bind, Printf, ret. cbn zeta.
  destruct (execCommandInContainer api namespace pod container "whoami" w)
    as [[[output [err|]] w1] t1]; cbn.
  - reflexivity.
  - destruct (Contains output "root"); cbn; now rewrite app_nil_r.
Qed.

Lemma pod_body_run (namespace pod : string) (acc : Acc) (w : World) :
  let r := Pods_Get api namespace pod w in
  pod_body api namespace pod acc w =
  match fst r with
  | Failed err =>
      (acc, snd r,
       [EvPodsGet namespace pod (Failed err);
        EvPrintf ("Error listing containers in pod " ++ pod ++ ": " ++ err ++ LF)])
  | Served p =>
      let l := range_loop (container_body api namespace pod)
                 (map c_Name (spec_Containers (pod_Spec p))) acc (snd r) in
      (result l, world_after l, EvPodsGet namespace pod (Served p) :: trace l)
  end.
Proof.
  unfold pod_body, bind. rewrite listContainers_run.
  destruct (Pods_Get api namespace pod w) as [[p | err] w1]; cbn.
  - now destruct (range_loop _ _ acc w1) as [[s2 w2] t2].
  - reflexivity.
Qed.

Lemma namespace_body_run (namespace : string) (acc : Acc) (w : World) :
  let r := Pods_List api namespace w in
  namespace_body api namespace acc w =
  match fst r with
  | Failed err =>
      (acc, snd r,
       [EvPodsList namespace (Failed err);
        EvPrintf ("Error listing pods in namespace " ++ namespace ++ ": " ++ err ++ LF)])
  | Served items =>
      let l := range_loop (pod_body api namespace) (map pod_Name items) acc (snd r) in
      (result l, world_after l, EvPodsList namespace (Served items) :: trace l)
  end.
Proof.
  unfold namespace_body, bind. rewrite listPods_run.
  destruct (Pods_List api namespace w) as [[items | err] w1]; cbn.
  - now destruct (range_loop _ _ acc w1) as [[s2 w2] t2].
  - reflexivity.
Qed.

Lemma findContainersWithErrors_run (w : World) :
  let r := Namespaces_List api w in
  findContainersWithErrors api w =
  match fst r with
  | Failed err => (([], [], Some err), snd r, [EvNamespacesList (Failed err)])
  | Served items =>
      let l := range_loop (namespace_body api)
                 (filter (fun n => negb (containsString excludeNamespaces n))
                    (map ns_Name items))
                 ([], []) (snd r) in
      ((fst (result l), snd (result l), None), world_after l,
       EvNamespacesList (Served items) :: trace l)
  end.
Proof.
  unfold findContainersWithErrors, bind. rewrite listNamespaces_run.
  destruct (Namespaces_List api w) as [[items | err] w1]; cbn.
  - destruct (range_loop _ _ _ w1) as [[[roots errs] w2] t2]. cbn. now rewrite app_nil_r.
  - reflexivity.
Qed.

End Traversal.

(** ** Classification: the two lists are read off the trace *)

Section Classification.

Variable World : Type.
Variable api : ClusterAPI World.

Lemma grows_nil (acc : Acc) : grows acc [] acc.
Proof. destruct acc. unfold grows. cbn. rewrite !app_nil_r. now split. Qed.

Lemma grows_app (a1 : Acc) (t1 : list Event) (a2 : Acc) (t2 : list Event) (a3 : Acc) :
  grows a1 t1 a2 -> grows a2 t2 a3 -> grows a1 (t1 ++ t2) a3.
Proof.
  unfold grows. intros [-> F1] [-> F2]. cbn. rewrite !flat_map_app, !app_assoc.
  split; [reflexivity|].
  rewrite <- !app_assoc. apply Forall_app in F1 as [R1 E1], F2 as [R2 E2].
  repeat (apply Forall_app; split); assumption.
Qed.

Lemma grows_silent (acc : Acc) (tr : list Event) :
  flat_map root_of_event tr = [] -> flat_map error_of_event tr = [] -> grows acc tr acc.
Proof. destruct acc. unfold grows. intros -> ->. cbn. rewrite !app_nil_r. now split. Qed.

Lemma container_body_grows (namespace pod container : string) (acc : Acc) (w : World) :
  grows acc (trace (container_body api namespace pod container acc w))
        (result (container_body api namespace pod container acc w)).
Proof.
  destruct acc as [roots errs]. unfold grows.
  rewrite container_body_run, execCommandInContainer_run. cbv zeta.
  destruct (NewSPDYExecutor api "POST" _ w) as [[err|] w1]; cbn.
  - rewrite app_nil_r. split; [reflexivity | now repeat constructor].
  - destruct (Stream api _ exec_streams w1) as [[out errtext [err|]] w2]; cbn.
    + rewrite app_nil_r. split; [reflexivity | now repeat constructor].
    + destruct (Contains out "root"); cbn; rewrite !app_nil_r;
        (split; [reflexivity | now repeat constructor]).
Qed.

Lemma pod_body_grows (namespace pod : string) (acc : Acc) (w : World) :
  grows acc (trace (pod_body api namespace pod acc w))
        (result (pod_body api namespace pod acc w)).
Proof.
  rewrite pod_body_run. cbv zeta.
  destruct (fst (Pods_Get api namespace pod w)) as [p | err].
  - apply (grows_app (t1 := [EvPodsGet namespace pod (Served p)]) (a2 := acc)).
    + now apply grows_silent.
    + apply range_loop_invariant; auto using grows_nil, container_body_grows.
      intros; eapply grows_app; eassumption.
  - now apply grows_silent.
Qed.

Lemma namespace_body_grows (namespace : string) (acc : Acc) (w : World) :
  grows acc (trace (namespace_body api namespace acc w))
        (result (namespace_body api namespace acc w)).
Proof.
  rewrite namespace_body_run. cbv zeta.
  destruct (fst (Pods_List api namespace w)) as [items | err].
  - apply (grows_app (t1 := [EvPodsList namespace (Served items)]) (a2 := acc)).
    + now apply grows_silent.
    + apply range_loop_invariant; auto using grows_nil, pod_body_grows.
      intros; eapply grows_app; eassumption.
  - now apply grows_silent.
Qed.

(** rootContainers holds one record per stream that ended without error
    and printed [root], errorContainers one per probe that failed, both in
    the order of the run. *)
Lemma findContainersWithErrors_classifies (w : World) :
  let run := findContainersWithErrors api w in
  fst (fst (result run)) = flat_map root_of_event (trace run) /\
  snd (fst (result run)) = flat_map error_of_event (trace run).
Proof.
  cbv zeta. rewrite findContainersWithErrors_run. cbv zeta.
  destruct (fst (Namespaces_List api w)) as [items | err]; [|now split].
  set (names := filter _ _).
  assert (G : grows ([], []) (trace (range_loop (namespace_body api) names ([], [])
                                       (snd (Namespaces_List api w))))
                    (result (range_loop (namespace_body api) names ([], [])
                               (snd (Namespaces_List api w))))).
  { apply range_loop_invariant; auto using grows_nil, namespace_body_grows.
    intros; eapply grows_app; eassumption. }
  destruct G as [G _]. cbn in *. rewrite G. now split.
Qed.

Lemma findContainersWithErrors_whoami (w : World) :
  let run := findContainersWithErrors api w in
  Forall (fun r => CommandExec r = "whoami")
         (fst (fst (result run)) ++ snd (fst (result run))).
Proof.
  cbv zeta. rewrite findContainersWithErrors_run. cbv zeta.
  destruct (fst (Namespaces_List api w)) as [items | err]; [|constructor].
  set (names := filter _ _).
  assert (G : grows ([], []) (trace (range_loop (namespace_body api) names ([], [])
                                       (snd (Namespaces_List api w))))
                    (result (range_loop (namespace_body api) names ([], [])
                               (snd (Namespaces_List api w))))).
  { apply range_loop_invariant; auto using grows_nil, namespace_body_grows.
    intros; eapply grows_app; eassumption. }
  destruct G as [G F]. cbn in *. rewrite G. exact F.
Qed.

End Classification.

(** C1: in every run, rootContainers is read off the trace: one record per
    stream that ended without error and wrote [root] somewhere on its
    standard output, nothing for any other successful stream;
    errorContainers holds records of failed probes only; every record names
    the command [whoami].  At each container whose probe succeeds with some
    output, the loop body appends the container's record to rootContainers
    when [root] is a substring of the output and leaves both lists as they
    were when it is not; for the output [root] followed by a line feed the
    record is appended, with CommandExec [whoami]. *)
Theorem root_classification :
  forall (World : Type) (api : ClusterAPI World),
    (forall w,
        let run := findContainersWithErrors api w in
        fst (fst (result run)) = flat_map root_of_event (trace run) /\
        snd (fst (result run)) = flat_map error_of_event (trace run) /\
        (forall req opts r,
            stream_err r = None ->
            root_of_event (EvStream req opts r)
              = (if Contains (written_stdout r) "root" then [record_of req] else []) /\
            error_of_event (EvStream req opts r) = []) /\
        Forall (fun r => CommandExec r = "whoami") (fst (fst (result run))))
    /\
    (forall namespace pod container roots errs w output,
        returned (execCommandInContainer api namespace pod container "whoami") w
          = (output, None) ->
        let record := {| Namespace := namespace; PodName := pod;
                         Container := container; CommandExec := "whoami" |} in
        let after := returned (container_body api namespace pod container (roots, errs)) w in
        ((exists before rest, output = (before ++ "root" ++ rest)%string) ->
         after = (roots ++ [record], errs)) /\
        (~ (exists before rest, output = (before ++ "root" ++ rest)%string) ->
         after = (roots, errs)) /\
        (output = ("root" ++ LF)%string ->
         after = (roots ++ [record], errs) /\ CommandExec record = "whoami")).
Proof.
  intros World api. split.
  - intros w. cbv zeta.
    destruct (findContainersWithErrors_classifies api w) as [R E].
    pose proof (findContainersWithErrors_whoami api w) as F.
    apply Forall_app in F as [F _].
    split; [exact R | split; [exact E | split; [|exact F]]].
    intros req opts r H. cbn. now rewrite H.
  - intros namespace pod container roots errs w output H. cbv zeta.
    unfold returned in *. rewrite container_body_run. cbv zeta. rewrite H. cbn.
    assert (Yes : (exists before rest, output = (before ++ "root" ++ rest)%string) ->
                  (if Contains output "root"
                   then (roots ++ [{| Namespace := namespace; PodName := pod;
                                      Container := container; CommandExec := "whoami" |}], errs)
                   else (roots, errs))
                  = (roots ++ [{| Namespace := namespace; PodName := pod;
                                  Container := container; CommandExec := "whoami" |}], errs)).
    { intros S. apply Contains_spec in S. now rewrite S. }
    split; [|split].
    + exact Yes.
    + intros N. destruct (Contains output "root") eqn:C; [|reflexivity].
      apply Contains_spec in C. contradiction.
    + intros ->. split; [|reflexivity]. apply Yes. now exists ""%string, LF.
Qed.

Lemma root_classification_witness :
  returned (execCommandInContainer (static_api (scenario_cluster []))
              "default" "busybox-pod" "busybox" "whoami") tt
    = (("root" ++ LF)%string, None)
  /\ returned (container_body (static_api (scenario_cluster []))
                 "default" "busybox-pod" "busybox" ([], [])) tt
     = ([ {| Namespace := "default"; PodName := "busybox-pod";
             Container := "busybox"; CommandExec := "whoami" |} ], []).
Proof.
  split; [reflexivity|].
  destruct (root_classification (static_api (scenario_cluster []))) as [_ L].
  destruct (L "default" "busybox-pod" "busybox" [] [] tt ("root" ++ LF)%string eq_refl)
    as [_ [_ R]].
  destruct (R eq_refl) as [R' _]. exact R'.
Defined.

(** ** Sequencing: which calls a run makes *)

Lemma flat_map_single {A B : Type} (f : A -> B) (l : list A) :
  flat_map (fun x => [f x]) l = map f l.
Proof. induction l as [|x l IH]; cbn; [reflexivity | now rewrite IH]. Qed.

Lemma flat_map_none {A B : Type} (l : list A) :
  flat_map (fun _ : A => @nil B) l = [].
Proof. induction l as [|x l IH]; cbn; [reflexivity | exact IH]. Qed.

Section Sequencing.

Variable World : Type.
Variable api : ClusterAPI World.

(** The events of one round of the container loop, projected. *)
Lemma container_body_shows {B : Type} (f : Event -> list B)
      (namespace pod container : string) (acc : Acc) (w : World) :
  (forall text, f (EvPrintf text) = []) ->
  (forall req opts r, f (EvStream req opts r) = []) ->
  flat_map f (trace (container_body api namespace pod container acc w))
  = f (EvNewSPDYExecutor "POST" (exec_request namespace pod container "whoami")
         (fst (NewSPDYExecutor api "POST"
                 (exec_request namespace pod container "whoami") w))).
Proof.
  intros Hprint Hstream.
  rewrite container_body_run, execCommandInContainer_run. cbv zeta.
  destruct (NewSPDYExecutor api "POST" _ w) as [[err|] w1]; cbn.
  - now rewrite Hprint, !app_nil_r.
  - destruct (Stream api _ exec_streams w1) as [[out errtext [err|]] w2]; cbn;
      now rewrite ?Hprint, ?Hstream, ?app_nil_r.
Qed.

Lemma container_loop_probes (namespace pod : string) (containers : list string)
      (acc : Acc) (w : World) :
  flat_map probe_calls
    (trace (range_loop (container_body api namespace pod) containers acc w))
  = map (fun c => (namespace, pod, c)) containers.
Proof.
  rewrite <- flat_map_single. apply range_loop_projection.
  intros c s w'. now rewrite container_body_shows.
Qed.

Lemma container_loop_hides {B : Type} (f : Event -> list B)
      (namespace pod : string) (containers : list string) (acc : Acc) (w : World) :
  (forall text, f (EvPrintf text) = []) ->
  (forall req opts r, f (EvStream req opts r) = []) ->
  (forall m req r, f (EvNewSPDYExecutor m req r) = []) ->
  flat_map f (trace (range_loop (container_body api namespace pod) containers acc w)) = [].
Proof.
  intros Hprint Hstream Hexec.
  rewrite <- (flat_map_none containers). apply range_loop_projection.
  intros c s w'. now rewrite container_body_shows.
Qed.

(** One round of the pod loop: the pod is fetched once, and a probe is
    started for each container the fetch announced. *)
Lemma pod_body_probes (namespace pod : string) (acc : Acc) (w : World) :
  flat_map probe_calls (trace (pod_body api namespace pod acc w))
  = flat_map containers_announced (trace (pod_body api namespace pod acc w)).
Proof.
  rewrite pod_body_run. cbv zeta.
  destruct (fst (Pods_Get api namespace pod w)) as [p | err]; [|reflexivity].
  cbn. rewrite container_loop_probes, container_loop_hides by reflexivity.
  now rewrite app_nil_r, map_map.
Qed.

Lemma pod_body_gets (namespace pod : string) (acc : Acc) (w : World) :
  flat_map pods_get_calls (trace (pod_body api namespace pod acc w)) = [(namespace, pod)].
Proof.
  rewrite pod_body_run. cbv zeta.
  destruct (fst (Pods_Get api namespace pod w)) as [p | err]; [|reflexivity].
  cbn. now rewrite container_loop_hides.
Qed.

Lemma pod_body_hides {B : Type} (f : Event -> list B)
      (namespace pod : string) (acc : Acc) (w : World) :
  (forall text, f (EvPrintf text) = []) ->
  (forall req opts r, f (EvStream req opts r) = []) ->
  (forall m req r, f (EvNewSPDYExecutor m req r) = []) ->
  (forall ns p r, f (EvPodsGet ns p r) = []) ->
  flat_map f (trace (pod_body api namespace pod acc w)) = [].
Proof.
  intros Hprint Hstream Hexec Hget.
  rewrite pod_body_run. cbv zeta.
  destruct (fst (Pods_Get api namespace pod w)) as [p | err]; cbn.
  - now rewrite Hget, container_loop_hides.
  - now rewrite Hget, Hprint.
Qed.

Lemma pod_loop_probes (namespace : string) (pods : list string) (acc : Acc) (w : World) :
  flat_map probe_calls (trace (range_loop (pod_body api namespace) pods acc w))
  = flat_map containers_announced (trace (range_loop (pod_body api namespace) pods acc w)).
Proof.
  apply (range_loop_invariant
           (fun _ tr _ => flat_map probe_calls tr = flat_map containers_announced tr)).
  - reflexivity.
  - intros _ t1 _ t2 _ H1 H2. now rewrite !flat_map_app, H1, H2.
  - intros pod s w' _. apply pod_body_probes.
Qed.

(** One round of the namespace loop: the pods are listed once, each
    announced pod is fetched, each announced container is probed. *)
Lemma namespace_body_lists (namespace : string) (acc : Acc) (w : World) :
  flat_map pods_list_calls (trace (namespace_body api namespace acc w)) = [namespace].
Proof.
  rewrite namespace_body_run. cbv zeta.
  destruct (fst (Pods_List api namespace w)) as [items | err]; [|reflexivity].
  cbn. rewrite (range_loop_projection pods_list_calls (fun _ => []))
    by (intros; now apply pod_body_hides).
  now rewrite flat_map_none.
Qed.

Lemma namespace_body_gets (namespace : string) (acc : Acc) (w : World) :
  flat_map pods_get_calls (trace (namespace_body api namespace acc w))
  = flat_map pods_announced (trace (namespace_body api namespace acc w)).
Proof.
  rewrite namespace_body_run. cbv zeta.
  destruct (fst (Pods_List api namespace w)) as [items | err]; [|reflexivity].
  cbn.
  rewrite (range_loop_projection pods_get_calls (fun p => [(namespace, p)]))
    by (intros; apply pod_body_gets).
  rewrite (range_loop_projection pods_announced (fun _ => []))
    by (intros; now apply pod_body_hides).
  now rewrite flat_map_single, flat_map_none, app_nil_r, map_map.
Qed.

Lemma namespace_body_probes (namespace : string) (acc : Acc) (w : World) :
  flat_map probe_calls (trace (namespace_body api namespace acc w))
  = flat_map containers_announced (trace (namespace_body api namespace acc w)).
Proof.
  rewrite namespace_body_run. cbv zeta.
  destruct (fst (Pods_List api namespace w)) as [items | err]; [|reflexivity].
  cbn. apply pod_loop_probes.
Qed.

(** The walk as a whole. *)
Lemma findContainersWithErrors_calls (w : World) :
  let run := findContainersWithErrors api w in
  flat_map pods_list_calls (trace run)
    = match fst (Namespaces_List api w) with
      | Served items =>
          filter (fun n => negb (containsString excludeNamespaces n)) (map ns_Name items)
      | Failed _ => []
      end
  /\ flat_map pods_get_calls (trace run) = flat_map pods_announced (trace run)
  /\ flat_map probe_calls (trace run) = flat_map containers_announced (trace run).
Proof.
  cbv zeta. rewrite findContainersWithErrors_run. cbv zeta.
  destruct (fst (Namespaces_List api w)) as [items | err]; [|now repeat split].
  cbn. set (names := filter _ _). split; [|split].
  - rewrite (range_loop_projection pods_list_calls (fun n => [n]))
      by (intros; apply namespace_body_lists).
    now rewrite flat_map_single, map_id.
  - apply (range_loop_invariant
             (fun _ tr _ => flat_map pods_get_calls tr = flat_map pods_announced tr)).
    + reflexivity.
    + intros _ t1 _ t2 _ H1 H2. now rewrite !flat_map_app, H1, H2.
    + intros n s w' _. apply namespace_body_gets.
  - apply (range_loop_invariant
             (fun _ tr _ => flat_map probe_calls tr = flat_map containers_announced tr)).
    + reflexivity.
    + intros _ t1 _ t2 _ H1 H2. now rewrite !flat_map_app, H1, H2.
    + intros n s w' _. apply namespace_body_probes.
Qed.

End Sequencing.

(** C2: a failed namespace listing ends the run at once with the error and
    two empty lists, after that single call.  Otherwise the run returns no
    error; pods are listed in every non-excluded namespace that was served,
    in order, whatever failed on the way; every pod a successful listing
    announced is fetched and no other; every container a successful fetch
    announced is probed and no other; a failed probe contributes its record
    to errorContainers and nothing to rootContainers.  Step by step: a
    namespace whose pods cannot be listed, a pod that cannot be fetched, and
    a container whose probe fails each print a line and leave the loop to go
    on with the remaining namespaces, pods or containers; the first two
    leave both lists untouched, the last appends to errorContainers only. *)
Theorem partial_failure_tolerance :
  forall (World : Type) (api : ClusterAPI World),
    (forall w,
        let run := findContainersWithErrors api w in
        match fst (Namespaces_List api w) with
        | Failed err =>
            result run = ([], [], Some err) /\
            trace run = [EvNamespacesList (Failed err)]
        | Served items =>
            snd (result run) = None /\
            flat_map pods_list_calls (trace run)
              = filter (fun n => negb (containsString excludeNamespaces n))
                  (map ns_Name items) /\
            flat_map pods_get_calls (trace run) = flat_map pods_announced (trace run) /\
            flat_map probe_calls (trace run) = flat_map containers_announced (trace run) /\
            fst (fst (result run)) = flat_map root_of_event (trace run) /\
            snd (fst (result run)) = flat_map error_of_event (trace run)
        end)
    /\
    (forall namespace rest acc w err,
        fst (Pods_List api namespace w) = Failed err ->
        let next := range_loop (namespace_body api) rest acc
                      (snd (Pods_List api namespace w)) in
        range_loop (namespace_body api) (namespace :: rest) acc w
        = (result next, world_after next,
           [EvPodsList namespace (Failed err);
            EvPrintf ("Error listing pods in namespace " ++ namespace ++ ": " ++ err ++ LF)]
           ++ trace next))
    /\
    (forall namespace pod rest acc w err,
        fst (Pods_Get api namespace pod w) = Failed err ->
        let next := range_loop (pod_body api namespace) rest acc
                      (snd (Pods_Get api namespace pod w)) in
        range_loop (pod_body api namespace) (pod :: rest) acc w
        = (result next, world_after next,
           [EvPodsGet namespace pod (Failed err);
            EvPrintf ("Error listing containers in pod " ++ pod ++ ": " ++ err ++ LF)]
           ++ trace next))
    /\
    (forall namespace pod container rest roots errs w err,
        let probe := execCommandInContainer api namespace pod container "whoami" w in
        snd (result probe) = Some err ->
        let record := {| Namespace := namespace; PodName := pod;
                         Container := container; CommandExec := "whoami" |} in
        let next := range_loop (container_body api namespace pod) rest
                      (roots, errs ++ [record]) (world_after probe) in
        range_loop (container_body api namespace pod) (container :: rest) (roots, errs) w
        = (result next, world_after next,
           (trace probe
            ++ [EvPrintf ("Error running 'whoami' command in container " ++ container
                          ++ ": " ++ err ++ LF)])
           ++ trace next)).
Proof.
  intros World api. split; [|split; [|split]].
  - intros w. cbv zeta.
    destruct (findContainersWithErrors_classifies api w) as [R E].
    destruct (findContainersWithErrors_calls api w) as [L [G P]].
    cbv zeta in *. rewrite findContainersWithErrors_run in *. cbv zeta in *.
    destruct (fst (Namespaces_List api w)) as [items | err].
    + repeat (split; [assumption || reflexivity|]). assumption.
    + now split.
  - intros namespace rest acc w err H. cbv zeta.
    rewrite range_loop_cons, namespace_body_run. cbv zeta. now rewrite H.
  - intros namespace pod rest acc w err H. cbv zeta.
    rewrite range_loop_cons, pod_body_run. cbv zeta. now rewrite H.
  - intros namespace pod container rest roots errs w err. cbv zeta. intros H.
    rewrite range_loop_cons, container_body_run. cbv zeta. now rewrite H.
Qed.

Lemma partial_failure_tolerance_witness :
  fst (Pods_List (static_api mixed_cluster) "locked" tt) = Failed "pods is forbidden"
  /\ returned (range_loop (namespace_body (static_api mixed_cluster))
                 ["locked"; "apps"; "batch"] ([], [])) tt
     = returned (range_loop (namespace_body (static_api mixed_cluster))
                   ["apps"; "batch"] ([], [])) tt.
Proof.
  split; [reflexivity|].
  destruct (partial_failure_tolerance (static_api mixed_cluster)) as [_ [N _]].
  unfold returned.
  rewrite (N "locked" ["apps"; "batch"] ([], []) tt "pods is forbidden" eq_refl).
  reflexivity.
Defined.

(** ** Disjointness of the two lists *)





Section Disjointness.

Variable World : Type.
Variable api : ClusterAPI World.

(** Kubernetes keeps names unique in their scope: namespaces in the
    cluster, pods in a namespace, containers in a pod. *)
Hypothesis namespaces_unique :
  forall w items, fst (Namespaces_List api w) = Served items -> NoDup (map ns_Name items).
Hypothesis pods_unique :
  forall namespace w items,
    fst (Pods_List api namespace w) = Served items -> NoDup (map pod_Name items).
Hypothesis containers_unique :
  forall namespace pod w p,
    fst (Pods_Get api namespace pod w) = Served p ->
    NoDup (map c_Name (spec_Containers (pod_Spec p))).





End Disjointness.


Section DisjointRuns.

Variable World : Type.
Variable api : ClusterAPI World.




End DisjointRuns.



(** The uniqueness of names is what keeps the lists apart: the program
    probes every name it is handed, so a name handed twice is probed twice,
    and the two probes may end differently. *)
Example repeated_name_is_probed_twice :
  returned (findContainersWithErrors repeating_api) 0
  = ([ {| Namespace := "default"; PodName := "twin"; Container := "app";
          CommandExec := "whoami" |} ],
     [ {| Namespace := "default"; PodName := "twin"; Container := "app";
          CommandExec := "whoami" |} ],
     None).
Proof. vm_compute. reflexivity. Qed.







(** ** The end-to-end scenario *)

(** C4: on the cluster with the namespaces [default] and [kube-system],
    where [default] holds the pod [busybox-pod] with the one container
    [busybox] whose probe prints [root] and a line feed, the run returns the
    one record of that container in rootContainers, an empty errorContainers
    and no error; it makes five calls, none of them against [kube-system],
    whatever that namespace holds. *)
Theorem end_to_end_scenario :
  forall kube_system : list PodState,
    let run := findContainersWithErrors (static_api (scenario_cluster kube_system)) tt in
    let pod := {| pod_Name := "busybox-pod";
                  pod_Spec := {| spec_InitContainers := [];
                                 spec_Containers := [ {| c_Name := "busybox";
                                                         c_Image := "busybox" |} ] |} |} in
    let req := exec_request "default" "busybox-pod" "busybox" "whoami" in
    result run
      = ([ {| Namespace := "default"; PodName := "busybox-pod";
              Container := "busybox"; CommandExec := "whoami" |} ], [], None)
    /\ trace run
       = [ EvNamespacesList (Served [ {| ns_Name := "default" |};
                                      {| ns_Name := "kube-system" |} ]);
           EvPodsList "default" (Served [pod]);
           EvPodsGet "default" "busybox-pod" (Served pod);
           EvNewSPDYExecutor "POST" req None;
           EvStream req exec_streams
             {| written_stdout := "root" ++ LF; written_stderr := ""; stream_err := None |} ]
    /\ Forall (fun e => event_namespace e <> Some "kube-system") (trace run).
Proof.
  intros kube_system. cbv zeta.
  assert (T : trace (findContainersWithErrors (static_api (scenario_cluster kube_system)) tt)
              = [ EvNamespacesList (Served [ {| ns_Name := "default" |};
                                             {| ns_Name := "kube-system" |} ]);
                  EvPodsList "default"
                    (Served [ {| pod_Name := "busybox-pod";
                                 pod_Spec := {| spec_InitContainers := [];
                                                spec_Containers :=
                                                  [ {| c_Name := "busybox";
                                                       c_Image := "busybox" |} ] |} |} ]);
                  EvPodsGet "default" "busybox-pod"
                    (Served {| pod_Name := "busybox-pod";
                               pod_Spec := {| spec_InitContainers := [];
                                              spec_Containers :=
                                                [ {| c_Name := "busybox";
                                                     c_Image := "busybox" |} ] |} |});
                  EvNewSPDYExecutor "POST"
                    (exec_request "default" "busybox-pod" "busybox" "whoami") None;
                  EvStream (exec_request "default" "busybox-pod" "busybox" "whoami")
                    exec_streams
                    {| written_stdout := "root" ++ LF; written_stderr := "";
                       stream_err := None |} ]).
  { vm_compute. reflexivity. }
  split; [vm_compute; reflexivity | split; [exact T|]].
  rewrite T. repeat constructor; cbn; discriminate.
Qed.

(** ** The exclusion set *)

(** C6: listNamespaces filters by whatever exclusion set it is handed: with
    the empty set it returns every served name, [kube-system] included, and
    with another set it removes that set's names.  The set that
    findContainersWithErrors hands it is [kube-system], [kube-public] and
    [kube-node-lease]: the namespaces whose pods a run lists are those
    listNamespaces returns for that set. *)
Theorem exclusion_set_is_a_parameter :
  excludeNamespaces = ["kube-system"; "kube-public"; "kube-node-lease"]
  /\ (forall (World : Type) (api : ClusterAPI World) (excl : list string) (w : World),
         fst (returned (listNamespaces api excl) w)
         = match fst (Namespaces_List api w) with
           | Served items =>
               filter (fun n => negb (containsString excl n)) (map ns_Name items)
           | Failed _ => []
           end)
  /\ (forall (World : Type) (api : ClusterAPI World) (w : World),
         flat_map pods_list_calls (observed (findContainersWithErrors api) w)
         = fst (returned
                  (listNamespaces api ["kube-system"; "kube-public"; "kube-node-lease"]) w))
  /\ returned (listNamespaces (static_api (scenario_cluster [])) []) tt
     = (["default"; "kube-system"], None)
  /\ returned (listNamespaces (static_api (scenario_cluster [])) ["default"]) tt
     = (["kube-system"], None)
  /\ returned (listNamespaces (static_api (scenario_cluster [])) excludeNamespaces) tt
     = (["default"], None).
Proof.
  split; [reflexivity | split; [|split; [|repeat split]]].
  - intros World api excl w. unfold returned. rewrite listNamespaces_run. cbn.
    now destruct (fst (Namespaces_List api w)).
  - intros World api w. unfold returned, observed.
    destruct (findContainersWithErrors_calls api w) as [L _]. cbv zeta in L.
    rewrite L, listNamespaces_run. cbn.
    now destruct (fst (Namespaces_List api w)).
Qed.

(** ** The remote probe executor *)

Lemma range_loop_agree {World A S : Type} (body1 body2 : A -> S -> M World S) (l : list A) :
  (forall x s w, fst (body1 x s w) = fst (body2 x s w)) ->
  forall s w, fst (range_loop body1 l s w) = fst (range_loop body2 l s w).
Proof.
  intros H. induction l as [|x rest IH]; intros s w; [reflexivity|].
  rewrite !range_loop_cons. cbn. unfold result, world_after.
  now rewrite H, IH.
Qed.

Section StandardError.

Variable World : Type.
Variable api : ClusterAPI World.
Variable f : string -> string.

(** What is written to standard error changes neither what the executor
    returns nor the world it leaves. *)
Lemma execCommandInContainer_stderr (namespace pod container command : string) (w : World) :
  fst (execCommandInContainer (map_stderr f api) namespace pod container command w)
  = fst (execCommandInContainer api namespace pod container command w).
Proof.
  rewrite !execCommandInContainer_run. cbv zeta. cbn [map_stderr NewSPDYExecutor Stream].
  destruct (NewSPDYExecutor api "POST" _ w) as [[err|] w1]; [reflexivity|].
  destruct (Stream api _ exec_streams w1) as [[out errtext [err|]] w2]; reflexivity.
Qed.

Lemma container_body_stderr (namespace pod container : string) (acc : Acc) (w : World) :
  fst (container_body (map_stderr f api) namespace pod container acc w)
  = fst (container_body api namespace pod container acc w).
Proof.
  rewrite !container_body_run. cbv zeta. unfold result, world_after.
  rewrite execCommandInContainer_stderr.
  now destruct (snd (fst (fst (execCommandInContainer api namespace pod container "whoami" w)))).
Qed.

Lemma pod_body_stderr (namespace pod : string) (acc : Acc) (w : World) :
  fst (pod_body (map_stderr f api) namespace pod acc w)
  = fst (pod_body api namespace pod acc w).
Proof.
  rewrite !pod_body_run. cbv zeta. cbn [map_stderr Pods_Get].
  destruct (fst (Pods_Get api namespace pod w)) as [p | err]; [|reflexivity].
  unfold result, world_after. cbn [fst].
  now rewrite (range_loop_agree _ _ _ (container_body_stderr namespace pod)).
Qed.

Lemma namespace_body_stderr (namespace : string) (acc : Acc) (w : World) :
  fst (namespace_body (map_stderr f api) namespace acc w)
  = fst (namespace_body api namespace acc w).
Proof.
  rewrite !namespace_body_run. cbv zeta. cbn [map_stderr Pods_List].
  destruct (fst (Pods_List api namespace w)) as [items | err]; [|reflexivity].
  unfold result, world_after. cbn [fst].
  now rewrite (range_loop_agree _ _ _ (pod_body_stderr namespace)).
Qed.

Lemma findContainersWithErrors_stderr (w : World) :
  fst (findContainersWithErrors (map_stderr f api) w) = fst (findContainersWithErrors api w).
Proof.
  rewrite !findContainersWithErrors_run. cbv zeta. cbn [map_stderr Namespaces_List].
  destruct (fst (Namespaces_List api w)) as [items | err]; [|reflexivity].
  unfold result, world_after. cbn [fst].
  now rewrite (range_loop_agree _ _ _ namespace_body_stderr).
Qed.

End StandardError.

(** C7: for any namespace, pod, container and command, the executor
    addresses the exec subresource of that pod and container with stdin off,
    stdout on, stderr on and no terminal, the command it was given being the
    last word of the command vector; it builds one executor and, when that
    is built, opens one stream on that request with no input attached, the
    standard-output builder and the standard-error builder both attached,
    and no terminal; it makes no other call; when the stream ends without
    error it returns the text the stream wrote to the standard-output
    builder, with no error; the text written to the standard-error builder
    changes neither what the executor returns nor what the traversal
    returns. *)
Theorem probe_executor_contract :
  forall (World : Type) (api : ClusterAPI World)
         (namespace pod container command : string) (w : World),
    let req := exec_request namespace pod container command in
    let streams := {| so_Stdin := false; so_Stdout := true;
                      so_Stderr := true; so_Tty := false |} in
    let run := execCommandInContainer api namespace pod container command w in
    (req_resource req = "pods" /\ req_subresource req = "exec" /\
     req_namespace req = namespace /\ req_name req = pod /\
     opt_Container (req_params req) = container /\
     nth 2 (opt_Command (req_params req)) "" = command)
    /\ (opt_Stdin (req_params req) = false /\ opt_Stdout (req_params req) = true /\
        opt_Stderr (req_params req) = true /\ opt_TTY (req_params req) = false)
    /\ ((exists err w1,
            NewSPDYExecutor api "POST" req w = (Some err, w1) /\
            trace run = [EvNewSPDYExecutor "POST" req (Some err)])
        \/
        (exists w1,
            NewSPDYExecutor api "POST" req w = (None, w1) /\
            trace run = [EvNewSPDYExecutor "POST" req None;
                         EvStream req streams (fst (Stream api req streams w1))] /\
            world_after run = snd (Stream api req streams w1)))
    /\ (forall w1 r w2,
           NewSPDYExecutor api "POST" req w = (None, w1) ->
           Stream api req streams w1 = (r, w2) ->
           stream_err r = None ->
           result run = (written_stdout r, None))
    /\ (forall f : string -> string,
           result (execCommandInContainer (map_stderr f api) namespace pod container command w)
           = result run
           /\ result (findContainersWithErrors (map_stderr f api) w)
              = result (findContainersWithErrors api w)).
Proof.
  intros World api namespace pod container command w. cbv zeta.
  split; [now repeat split | split; [now repeat split | split; [|split]]].
  - rewrite execCommandInContainer_run. cbv zeta.
    destruct (NewSPDYExecutor api "POST" _ w) as [[err|] w1].
    + left. now exists err, w1.
    + right. exists w1. now repeat split.
  - intros w1 r w2 H1 H2 H3.
    rewrite execCommandInContainer_run. cbv zeta. rewrite H1.
    change exec_streams
      with {| so_Stdin := false; so_Stdout := true; so_Stderr := true; so_Tty := false |}.
    rewrite H2. cbn. now rewrite H3.
  - intros f. unfold result.
    now rewrite execCommandInContainer_stderr, findContainersWithErrors_stderr.
Qed.

Lemma probe_executor_contract_witness :
  NewSPDYExecutor (static_api (scenario_cluster [])) "POST"
    (exec_request "default" "busybox-pod" "busybox" "whoami") tt = (None, tt)
  /\ returned (execCommandInContainer (static_api (scenario_cluster []))
                 "default" "busybox-pod" "busybox" "whoami") tt
     = (("root" ++ LF)%string, None).
Proof.
  split; [reflexivity|].
  destruct (@probe_executor_contract unit (static_api (scenario_cluster []))
              "default" "busybox-pod" "busybox" "whoami" tt) as [_ [_ [_ [S _]]]].
  exact (S tt {| written_stdout := "root" ++ LF; written_stderr := ""; stream_err := None |}
           tt eq_refl eq_refl eq_refl).
Defined.

(** C10: whatever command the executor is given, the command vector of its
    request is [sh], [-c] and the command, never the command alone.  The
    executor builds one executor for that request and, whenever that is
    built, opens exactly one stream, on that same request, with the two
    output builders attached: so what is started in the container is [sh],
    and what the executor returns is what that stream gave.  It makes no
    other call.  Hence in a container where no stream of a command vector
    starting with [sh] ends without error, the executor returns an error for
    every command and the traversal files the container under
    errorContainers; and whenever the executor returns an error, the text it
    returns is empty. *)
Theorem probe_runs_through_sh :
  forall (World : Type) (api : ClusterAPI World)
         (namespace pod container command : string) (w : World),
    let req := exec_request namespace pod container command in
    let streams := {| so_Stdin := false; so_Stdout := true;
                      so_Stderr := true; so_Tty := false |} in
    let run := execCommandInContainer api namespace pod container command w in
    opt_Command (req_params req) = ["sh"; "-c"; command]
    /\ opt_Command (req_params req) <> [command]
    /\ Forall (fun e => match e with
                        | EvNewSPDYExecutor _ r _ => r = req
                        | EvStream r _ _ => r = req
                        | _ => False
                        end) (trace run)
    /\ trace run
       = match NewSPDYExecutor api "POST" req w with
         | (Some err, _) => [EvNewSPDYExecutor "POST" req (Some err)]
         | (None, w1) =>
             [EvNewSPDYExecutor "POST" req None;
              EvStream req streams (fst (Stream api req streams w1))]
         end
    /\ result run
       = match NewSPDYExecutor api "POST" req w with
         | (Some err, _) => (""%string, Some err)
         | (None, w1) =>
             match stream_err (fst (Stream api req streams w1)) with
             | Some err => (""%string, Some err)
             | None => (written_stdout (fst (Stream api req streams w1)), None)
             end
         end
    /\ ((forall r opts w1,
            hd_error (opt_Command (req_params r)) = Some "sh" ->
            req_namespace r = namespace -> req_name r = pod ->
            opt_Container (req_params r) = container ->
            stream_err (fst (Stream api r opts w1)) <> None) ->
        (exists err, result run = ("", Some err)) /\
        (forall roots errs,
            result (container_body api namespace pod container (roots, errs) w)
            = (roots, errs ++ [{| Namespace := namespace; PodName := pod;
                                  Container := container; CommandExec := "whoami" |}])))
    /\ (forall err, snd (result run) = Some err -> fst (result run) = "").
Proof.
  intros World api namespace pod container command w. cbv zeta.
  assert (NoShell :
            (forall r opts w1,
                hd_error (opt_Command (req_params r)) = Some "sh" ->
                req_namespace r = namespace -> req_name r = pod ->
                opt_Container (req_params r) = container ->
                stream_err (fst (Stream api r opts w1)) <> None) ->
            forall cmd, exists err,
                result (execCommandInContainer api namespace pod container cmd w)
                = ("", Some err)).
  { intros H cmd. rewrite execCommandInContainer_run. cbv zeta.
    destruct (NewSPDYExecutor api "POST" _ w) as [[err|] w1]; [now exists err|].
    cbn. specialize (H (exec_request namespace pod container cmd) exec_streams w1
                       eq_refl eq_refl eq_refl eq_refl).
    destruct (stream_err (fst (Stream api _ exec_streams w1))) as [err|];
      [now exists err | contradiction]. }
  split; [reflexivity | split; [discriminate | split; [|split; [|split; [|split]]]]].
  - rewrite execCommandInContainer_run. cbv zeta.
    destruct (NewSPDYExecutor api "POST" _ w) as [[err|] w1]; cbn; now repeat constructor.
  - rewrite execCommandInContainer_run. cbv zeta.
    now destruct (NewSPDYExecutor api "POST" _ w) as [[err|] w1].
  - rewrite execCommandInContainer_run. cbv zeta.
    now destruct (NewSPDYExecutor api "POST" _ w) as [[err|] w1].
  - intros H. split; [now apply NoShell|].
    intros roots errs. rewrite container_body_run. cbv zeta.
    destruct (NoShell H "whoami") as [err E]. now rewrite E.
  - intros err. rewrite execCommandInContainer_run. cbv zeta.
    destruct (NewSPDYExecutor api "POST" _ w) as [[e|] w1]; cbn; [reflexivity|].
    destruct (stream_err (fst (Stream api _ exec_streams w1))); [reflexivity | discriminate].
Qed.

Lemma mixed_cluster_distroless_has_no_sh :
  forall r opts w1,
    hd_error (opt_Command (req_params r)) = Some "sh" ->
    req_namespace r = "apps" -> req_name r = "web" ->
    opt_Container (req_params r) = "distroless" ->
    stream_err (fst (Stream (static_api mixed_cluster) r opts w1)) <> None.
Proof.
  intros [verb resource name ns sub [cmd cont i o e t]] opts w1. cbn.
  intros H -> -> ->. destruct cmd as [|program args]; [discriminate|].
  cbn in H. injection H as ->. cbn. discriminate.
Qed.

Lemma probe_runs_through_sh_witness :
  written_stdout (run_in_container
                    {| cs_name := "distroless"; cs_user := "root"; cs_has_sh := false |}
                    ["whoami"]) = ("root" ++ LF)%string
  /\ (exists err,
         returned (execCommandInContainer (static_api mixed_cluster)
                     "apps" "web" "distroless" "whoami") tt = (""%string, Some err))
  /\ observed (execCommandInContainer (static_api mixed_cluster)
                 "apps" "web" "distroless" "whoami") tt
     = [ EvNewSPDYExecutor "POST" (exec_request "apps" "web" "distroless" "whoami") None;
         EvStream (exec_request "apps" "web" "distroless" "whoami")
           {| so_Stdin := false; so_Stdout := true; so_Stderr := true; so_Tty := false |}
           {| written_stdout := ""; written_stderr := "";
              stream_err := Some "executable file not found" |} ].
Proof.
  split; [reflexivity|].
  destruct (@probe_runs_through_sh unit (static_api mixed_cluster)
              "apps" "web" "distroless" "whoami" tt) as [_ [_ [_ [T [_ [S _]]]]]].
  split; [exact (proj1 (S mixed_cluster_distroless_has_no_sh)) | exact T].
Defined.

(** ** The pod enumerator *)

(** X1: listPods makes one call, against the namespace it was given.  When the
    call is served it returns the names of the served pods, as many and in
    the same order, with no error; when the call fails it returns no name
    and the error of the call. *)
Theorem listPods_names :
  forall (World : Type) (api : ClusterAPI World) (namespace : string) (w : World),
    observed (listPods api namespace) w
      = [EvPodsList namespace (fst (Pods_List api namespace w))]
    /\ world_after (listPods api namespace w) = snd (Pods_List api namespace w)
    /\ match fst (Pods_List api namespace w) with
       | Served items =>
           returned (listPods api namespace) w = (map pod_Name items, None) /\
           length (fst (returned (listPods api namespace) w)) = length items /\
           forall i pod, nth_error items i = Some pod ->
                         nth_error (fst (returned (listPods api namespace) w)) i
                         = Some (pod_Name pod)
       | Failed err => returned (listPods api namespace) w = ([], Some err)
       end.
Proof.
  intros World api namespace w. unfold observed, returned.
  rewrite listPods_run. cbn.
  split; [reflexivity | split; [reflexivity|]].
  destruct (fst (Pods_List api namespace w)) as [items | err]; [|reflexivity].
  split; [reflexivity | split].
  - cbn. apply length_map.
  - intros i pod H. cbn. now apply map_nth_error.
Qed.

Lemma listPods_names_witness :
  returned (listPods (static_api mixed_cluster) "apps") tt = (["vanished"; "web"], None)
  /\ nth_error (fst (returned (listPods (static_api mixed_cluster) "apps") tt)) 1
     = Some "web".
Proof.
  destruct (@listPods_names unit (static_api mixed_cluster) "apps" tt) as [_ [_ H]].
  cbn in H. destruct H as [R [_ N]]. split; [exact R|].
  exact (N 1 _ eq_refl).
Defined.

(** ** Exclusion sets *)

Lemma containsString_app (a b : list string) (str : string) :
  containsString (a ++ b) str = containsString a str || containsString b str.
Proof.
  induction a as [|s a IH]; cbn; [reflexivity|].
  destruct (String.eqb s str); [reflexivity | exact IH].
Qed.

Lemma filter_filter {A : Type} (p q : A -> bool) (l : list A) :
  filter q (filter p l) = filter (fun x => p x && q x) l.
Proof.
  induction l as [|x l IH]; cbn; [reflexivity|].
  destruct (p x); cbn; [destruct (q x); now rewrite IH | exact IH].
Qed.

(** X2: excluding two sets at once is excluding the first and then removing the
    names of the second from what is left; the call made and the error
    returned are those of the first alone. *)
Theorem listNamespaces_exclusion_composes :
  forall (World : Type) (api : ClusterAPI World) (excl more : list string) (w : World),
    returned (listNamespaces api (excl ++ more)) w
      = (filter (fun n => negb (containsString more n))
           (fst (returned (listNamespaces api excl) w)),
         snd (returned (listNamespaces api excl) w))
    /\ observed (listNamespaces api (excl ++ more)) w = observed (listNamespaces api excl) w.
Proof.
  intros World api excl more w. unfold returned, observed.
  rewrite !listNamespaces_run. cbn. split; [|reflexivity].
  destruct (fst (Namespaces_List api w)) as [items | err]; cbn; [|reflexivity].
  rewrite filter_filter. f_equal. apply filter_ext. intros n.
  now rewrite containsString_app, negb_orb.
Qed.

(** X3: only the members of the exclusion set matter, not their order nor how
    often they are written. *)
Theorem listNamespaces_exclusion_as_set :
  forall (World : Type) (api : ClusterAPI World) (excl excl' : list string) (w : World),
    (forall n, In n excl <-> In n excl') ->
    listNamespaces api excl w = listNamespaces api excl' w.
Proof.
  intros World api excl excl' w H. rewrite !listNamespaces_run.
  destruct (fst (Namespaces_List api w)) as [items | err]; [|reflexivity].
  do 3 f_equal. apply filter_ext. intros n. f_equal.
  destruct (containsString excl' n) eqn:E.
  - apply containsString_In. apply H. now apply containsString_In.
  - apply containsString_false. intros I. apply H in I.
    apply containsString_In in I. congruence.
Qed.

Lemma listNamespaces_exclusion_as_set_witness :
  listNamespaces (static_api mixed_cluster) ["apps"; "locked"; "apps"] tt
  = listNamespaces (static_api mixed_cluster) ["locked"; "apps"] tt.
Proof.
  apply listNamespaces_exclusion_as_set.
  intros n. cbn. tauto.
Defined.

(** ** A cluster with nothing to walk *)

(** X4: when every served namespace is in the exclusion set of the traversal
    (or none is served), the run ends after the namespace listing: no other
    call, nothing printed, two empty lists and no error. *)
Theorem nothing_to_walk :
  forall (World : Type) (api : ClusterAPI World) (w w' : World) (items : list V1Namespace),
    Namespaces_List api w = (Served items, w') ->
    Forall (fun ns => In (ns_Name ns) excludeNamespaces) items ->
    findContainersWithErrors api w = (([], [], None), w', [EvNamespacesList (Served items)]).
Proof.
  intros World api w w' items H F. rewrite findContainersWithErrors_run. cbv zeta.
  rewrite H. cbn [fst snd].
  assert (E : filter (fun n => negb (containsString excludeNamespaces n)) (map ns_Name items)
              = []).
  { clear H. induction F as [|ns items Hns F IH]; [reflexivity|].
    cbn -[containsString excludeNamespaces].
    apply containsString_In in Hns. now rewrite Hns. }
  rewrite E. reflexivity.
Qed.

Lemma nothing_to_walk_witness :
  findContainersWithErrors (static_api system_only_cluster) tt
  = (([], [], None), tt,
     [EvNamespacesList (Served [ {| ns_Name := "kube-system" |};
                                 {| ns_Name := "kube-public" |} ])]).
Proof.
  apply (@nothing_to_walk unit (static_api system_only_cluster) tt tt _ eq_refl).
  repeat constructor; cbn; tauto.
Defined.

(** ** Where a walk goes *)

Ltac within_events :=
  repeat (apply Forall_cons; [first [now left | right; now eexists] |]);
  try apply Forall_nil.

Section Whereabouts.

Variable World : Type.
Variable api : ClusterAPI World.

Lemma within_loop {A : Type} (namespace : string) (body : A -> Acc -> M World Acc)
      (l : list A) :
  (forall x s w, Forall (within namespace) (trace (body x s w))) ->
  forall s w, Forall (within namespace) (trace (range_loop body l s w)).
Proof.
  intros H.
  apply (range_loop_invariant (fun _ tr _ => Forall (within namespace) tr)).
  - constructor.
  - intros _ t1 _ t2 _ F1 F2. apply Forall_app. now split.
  - intros x s w _. apply H.
Qed.

Lemma container_body_within (namespace pod container : string) (acc : Acc) (w : World) :
  Forall (within namespace) (trace (container_body api namespace pod container acc w)).
Proof.
  rewrite container_body_run, execCommandInContainer_run. cbv zeta.
  destruct (NewSPDYExecutor api "POST" _ w) as [[err|] w1]; cbn.
  - within_events.
  - destruct (Stream api _ exec_streams w1) as [[out errtext [err|]] w2]; cbn;
      within_events.
Qed.

Lemma pod_body_within (namespace pod : string) (acc : Acc) (w : World) :
  Forall (within namespace) (trace (pod_body api namespace pod acc w)).
Proof.
  rewrite pod_body_run. cbv zeta.
  destruct (fst (Pods_Get api namespace pod w)) as [p | err]; cbn.
  - constructor; [now left|]. apply within_loop. intros; apply container_body_within.
  - within_events.
Qed.

Lemma namespace_body_within (namespace : string) (acc : Acc) (w : World) :
  Forall (within namespace) (trace (namespace_body api namespace acc w)).
Proof.
  rewrite namespace_body_run. cbv zeta.
  destruct (fst (Pods_List api namespace w)) as [items | err]; cbn.
  - constructor; [now left|]. apply within_loop. intros; apply pod_body_within.
  - within_events.
Qed.

(** After the namespace listing, every event of a run is a line printed or
    a call about one of the namespaces the listing kept. *)
Lemma findContainersWithErrors_within (w : World) :
  exists rest,
    trace (findContainersWithErrors api w)
      = EvNamespacesList (fst (Namespaces_List api w)) :: rest
    /\ Forall (fun e => exists n,
                   In n (fst (returned (listNamespaces api excludeNamespaces) w))
                   /\ within n e) rest.
Proof.
  unfold returned. rewrite findContainersWithErrors_run, listNamespaces_run. cbv zeta.
  destruct (fst (Namespaces_List api w)) as [items | err]; cbn -[excludeNamespaces].
  - eexists. split; [reflexivity|].
    apply (range_loop_invariant
             (fun _ tr _ =>
                Forall (fun e => exists n,
                            In n (filter (fun n => negb (containsString excludeNamespaces n))
                                    (map ns_Name items)) /\ within n e) tr)).
    + constructor.
    + intros _ t1 _ t2 _ F1 F2. apply Forall_app. now split.
    + intros n s w' Hn. eapply Forall_impl; [|apply namespace_body_within].
      intros e He. now exists n.
  - exists []. split; [reflexivity | constructor].
Qed.

Lemma record_namespace (e : Event) (r : ContainerInfo) :
  In r (root_of_event e ++ error_of_event e) -> event_namespace e = Some (Namespace r).
Proof.
  destruct e as [r0 | ns r0 | ns p r0 | m req [err|] | req opts r0 | text]; cbn;
    try contradiction.
  - now intros [<- | []].
  - destruct (stream_err r0); [now intros [<- | []]|].
    destruct (Contains (written_stdout r0) "root"); [now intros [<- | []] | contradiction].
Qed.

End Whereabouts.

(** X5: in every cluster, a run makes no call about a namespace of the
    exclusion set of the traversal, and no record of either list names
    such a namespace. *)
Theorem excluded_namespaces_untouched :
  forall (World : Type) (api : ClusterAPI World) (w : World),
    let run := findContainersWithErrors api w in
    Forall (fun e => touches_excluded e = false) (trace run)
    /\ Forall (fun r => containsString excludeNamespaces (Namespace r) = false)
              (fst (fst (result run)) ++ snd (fst (result run))).
Proof.
  intros World api w. cbv zeta.
  assert (T : Forall (fun e => touches_excluded e = false)
                     (trace (findContainersWithErrors api w))).
  { destruct (findContainersWithErrors_within api w) as [rest [E F]].
    rewrite E. constructor; [reflexivity|].
    eapply Forall_impl; [|exact F].
    intros e [n [Hn [Hw | [text ->]]]]; [|reflexivity].
    unfold touches_excluded. rewrite Hw.
    unfold returned in Hn. rewrite listNamespaces_run in Hn.
    destruct (fst (Namespaces_List api w)); cbn -[excludeNamespaces] in Hn; [|contradiction].
    apply filter_In in Hn as [_ Hn]. now apply negb_true_iff in Hn. }
  split; [exact T|].
  destruct (findContainersWithErrors_classifies api w) as [R E]. cbv zeta in R, E.
  rewrite R, E. rewrite Forall_forall in T. apply Forall_forall. intros r Hr.
  assert (exists e, In e (trace (findContainersWithErrors api w))
                    /\ In r (root_of_event e ++ error_of_event e)) as [e [He Hre]].
  { apply in_app_or in Hr as [Hr | Hr]; apply in_flat_map in Hr as [e [He Hr]];
      exists e; (split; [exact He | apply in_or_app; auto]). }
  specialize (T e He). unfold touches_excluded in T.
  now rewrite (record_namespace e r Hre) in T.
Qed.

(** X6: the namespaces are listed once, before anything else; a run never asks
    for them again. *)
Theorem namespaces_listed_once :
  forall (World : Type) (api : ClusterAPI World) (w : World),
    exists rest,
      observed (findContainersWithErrors api) w
        = EvNamespacesList (fst (Namespaces_List api w)) :: rest
      /\ Forall (fun e => is_namespaces_list e = false) rest.
Proof.
  intros World api w. unfold observed.
  destruct (findContainersWithErrors_within api w) as [rest [E F]].
  exists rest. split; [exact E|].
  eapply Forall_impl; [|exact F].
  intros e [n [_ [Hw | [text ->]]]]; [|reflexivity].
  destruct e; try reflexivity. discriminate Hw.
Qed.

(** ** What a walk prints and how much it records *)

Section Accounting.

Variable World : Type.
Variable api : ClusterAPI World.

(** Two readings of a trace that agree on every round agree on the loop. *)
Lemma range_loop_readings {A S B : Type} (f g : Event -> list B)
      (body : A -> S -> M World S) (l : list A) :
  (forall x s w, flat_map f (trace (body x s w)) = flat_map g (trace (body x s w))) ->
  forall s w, flat_map f (trace (range_loop body l s w))
              = flat_map g (trace (range_loop body l s w)).
Proof.
  intros H. apply (range_loop_invariant (fun _ tr _ => flat_map f tr = flat_map g tr)).
  - reflexivity.
  - intros _ t1 _ t2 _ H1 H2. now rewrite !flat_map_app, H1, H2.
  - intros x s w _. apply H.
Qed.

Lemma container_body_prints (namespace pod container : string) (acc : Acc) (w : World) :
  flat_map printed (trace (container_body api namespace pod container acc w))
  = flat_map failure_line (trace (container_body api namespace pod container acc w)).
Proof.
  rewrite container_body_run, execCommandInContainer_run. cbv zeta.
  destruct (NewSPDYExecutor api "POST" _ w) as [[err|] w1]; cbn; [reflexivity|].
  destruct (Stream api _ exec_streams w1) as [[out errtext [err|]] w2]; cbn; reflexivity.
Qed.

Lemma pod_body_prints (namespace pod : string) (acc : Acc) (w : World) :
  flat_map printed (trace (pod_body api namespace pod acc w))
  = flat_map failure_line (trace (pod_body api namespace pod acc w)).
Proof.
  rewrite pod_body_run. cbv zeta.
  destruct (fst (Pods_Get api namespace pod w)) as [p | err]; cbn; [|reflexivity].
  apply range_loop_readings. intros; apply container_body_prints.
Qed.

Lemma namespace_body_prints (namespace : string) (acc : Acc) (w : World) :
  flat_map printed (trace (namespace_body api namespace acc w))
  = flat_map failure_line (trace (namespace_body api namespace acc w)).
Proof.
  rewrite namespace_body_run. cbv zeta.
  destruct (fst (Pods_List api namespace w)) as [items | err]; cbn; [|reflexivity].
  apply range_loop_readings. intros; apply pod_body_prints.
Qed.

Lemma findContainersWithErrors_prints (w : World) :
  flat_map printed (trace (findContainersWithErrors api w))
  = flat_map failure_line (trace (findContainersWithErrors api w)).
Proof.
  rewrite findContainersWithErrors_run. cbv zeta.
  destruct (fst (Namespaces_List api w)) as [items | err]; cbn; [|reflexivity].
  apply range_loop_readings. intros; apply namespace_body_prints.
Qed.

(** Every record comes after the start of a probe of its container, and
    there are no more records than probes. *)
Lemma container_body_probed (namespace pod container : string) (acc : Acc) (w : World) :
  let tr := trace (container_body api namespace pod container acc w) in
  incl (flat_map recorded tr) (flat_map probe_calls tr)
  /\ length (flat_map recorded tr) <= length (flat_map probe_calls tr).
Proof.
  cbv zeta. rewrite container_body_run, execCommandInContainer_run. cbv zeta.
  destruct (NewSPDYExecutor api "POST" _ w) as [[err|] w1]; cbn.
  - split; [apply incl_refl | lia].
  - destruct (Stream api _ exec_streams w1) as [[out errtext [err|]] w2]; cbn.
    + split; [apply incl_refl | lia].
    + destruct (Contains out "root"); cbn; (split; [|lia]);
        [apply incl_refl | intros x []].
Qed.

Lemma probed_loop {A : Type} (body : A -> Acc -> M World Acc) (l : list A) :
  (forall x s w,
      incl (flat_map recorded (trace (body x s w))) (flat_map probe_calls (trace (body x s w)))
      /\ length (flat_map recorded (trace (body x s w)))
         <= length (flat_map probe_calls (trace (body x s w)))) ->
  forall s w,
    incl (flat_map recorded (trace (range_loop body l s w)))
         (flat_map probe_calls (trace (range_loop body l s w)))
    /\ length (flat_map recorded (trace (range_loop body l s w)))
       <= length (flat_map probe_calls (trace (range_loop body l s w))).
Proof.
  intros H.
  apply (range_loop_invariant
           (fun _ tr _ => incl (flat_map recorded tr) (flat_map probe_calls tr)
                          /\ length (flat_map recorded tr)
                             <= length (flat_map probe_calls tr))).
  - split; [apply incl_refl | cbn; lia].
  - intros _ t1 _ t2 _ [I1 L1] [I2 L2]. rewrite !flat_map_app, !length_app.
    split; [now apply incl_app_app | lia].
  - intros x s w _. apply H.
Qed.

Lemma pod_body_probed (namespace pod : string) (acc : Acc) (w : World) :
  let tr := trace (pod_body api namespace pod acc w) in
  incl (flat_map recorded tr) (flat_map probe_calls tr)
  /\ length (flat_map recorded tr) <= length (flat_map probe_calls tr).
Proof.
  cbv zeta. rewrite pod_body_run. cbv zeta.
  destruct (fst (Pods_Get api namespace pod w)) as [p | err]; cbn.
  - apply probed_loop. intros; apply container_body_probed.
  - split; [apply incl_refl | lia].
Qed.

Lemma namespace_body_probed (namespace : string) (acc : Acc) (w : World) :
  let tr := trace (namespace_body api namespace acc w) in
  incl (flat_map recorded tr) (flat_map probe_calls tr)
  /\ length (flat_map recorded tr) <= length (flat_map probe_calls tr).
Proof.
  cbv zeta. rewrite namespace_body_run. cbv zeta.
  destruct (fst (Pods_List api namespace w)) as [items | err]; cbn.
  - apply probed_loop. intros; apply pod_body_probed.
  - split; [apply incl_refl | lia].
Qed.

Lemma findContainersWithErrors_probed (w : World) :
  let tr := trace (findContainersWithErrors api w) in
  incl (flat_map recorded tr) (flat_map probe_calls tr)
  /\ length (flat_map recorded tr) <= length (flat_map probe_calls tr).
Proof.
  cbv zeta. rewrite findContainersWithErrors_run. cbv zeta.
  destruct (fst (Namespaces_List api w)) as [items | err]; cbn.
  - apply probed_loop. intros; apply namespace_body_probed.
  - split; [apply incl_refl | lia].
Qed.

Lemma recorded_members (tr : list Event) (r : ContainerInfo) :
  In r (flat_map root_of_event tr ++ flat_map error_of_event tr) ->
  In (identity r) (flat_map recorded tr).
Proof.
  intros H. apply in_flat_map.
  apply in_app_or in H as [H | H]; apply in_flat_map in H as [ev [Hev Hr]];
    exists ev; (split; [assumption|]); unfold recorded; apply in_map, in_or_app; auto.
Qed.

Lemma recorded_length (tr : list Event) :
  length (flat_map recorded tr)
  = length (flat_map root_of_event tr) + length (flat_map error_of_event tr).
Proof.
  induction tr as [|e tr IH]; [reflexivity|].
  cbn. unfold recorded at 1. rewrite !length_app, length_map, length_app, IH. lia.
Qed.

End Accounting.

(** X7: the lines a run prints are, in order, one line per call that failed:
    for a pod listing the namespace and the error, for a pod fetch the pod
    and the error, for a probe the container and the error.  A run prints
    nothing else, and no such failure goes unprinted. *)
Theorem failures_are_printed :
  forall (World : Type) (api : ClusterAPI World) (w : World),
    flat_map printed (observed (findContainersWithErrors api) w)
    = flat_map failure_line (observed (findContainersWithErrors api) w).
Proof.
  intros World api w. apply findContainersWithErrors_prints.
Qed.

(** X8: every record of either list identifies a container that a successful
    pod fetch of this run announced, and the two lists together hold no
    more records than containers were announced. *)
Theorem records_are_of_announced_containers :
  forall (World : Type) (api : ClusterAPI World) (w : World),
    let run := findContainersWithErrors api w in
    incl (map identity (fst (fst (result run)) ++ snd (fst (result run))))
         (flat_map containers_announced (trace run))
    /\ length (fst (fst (result run))) + length (snd (fst (result run)))
       <= length (flat_map containers_announced (trace run)).
Proof.
  intros World api w. cbv zeta.
  destruct (findContainersWithErrors_classifies api w) as [R E]. cbv zeta in R, E.
  destruct (findContainersWithErrors_calls api w) as [_ [_ P]]. cbv zeta in P.
  destruct (findContainersWithErrors_probed api w) as [I L]. cbv zeta in I, L.
  rewrite R, E, <- P. split.
  - intros i Hi. apply in_map_iff in Hi as [r [<- Hr]].
    apply I. now apply recorded_members.
  - now rewrite <- recorded_length.
Qed.

(** ** The process *)

Section ProcessRuns.

Variables World Config Clientset : Type.
Variable host : Host World Config Clientset.

Lemma authenticateToCluster_run (w : World) :
  let path := filepath_Join host [HomeDir host w; ".kube"; "config"] in
  let c := BuildConfigFromFlags host "" path w in
  authenticateToCluster host w =
  match fst c with
  | Failed err => (Failed err, snd c, [HvBuildConfigFromFlags "" path (Some err)])
  | Served config =>
      let k := NewForConfig host config (snd c) in
      (match fst k with
       | Failed err => Failed err
       | Served clientset => Served (clientset, config)
       end,
       snd k,
       [HvBuildConfigFromFlags "" path None; HvNewForConfig (failure (fst k))])
  end.
Proof.
  cbv zeta. unfold authenticateToCluster, pbind, pcall, pret.
  destruct (BuildConfigFromFlags host "" _ w) as [[config | err] w1]; cbn; [|reflexivity].
  destruct (NewForConfig host config w1) as [[clientset | err] w2]; reflexivity.
Qed.

(** The authentication prints nothing and makes no call on the cluster. *)
Lemma authenticateToCluster_quiet (w : World) :
  flat_map stdout_of (snd (authenticateToCluster host w)) = []
  /\ flat_map cluster_calls (snd (authenticateToCluster host w)) = [].
Proof.
  rewrite authenticateToCluster_run. cbv zeta.
  destruct (fst (BuildConfigFromFlags host "" _ w)); now split.
Qed.

Lemma print_loop_run (l : list ContainerInfo) (u : unit) (w : World) :
  range_loop (fun c (_ : unit) => Printf (World := World) (report_line c)) l u w
  = (tt, w, map (fun c => EvPrintf (report_line c)) l).
Proof.
  revert u w. induction l as [|c l IH]; intros [] w; [reflexivity|].
  rewrite range_loop_cons. cbv zeta. rewrite IH. reflexivity.
Qed.

Lemma print_report_run (roots errs : list ContainerInfo) (w : World) :
  print_report roots errs w
  = (tt, w,
     EvPrintf (LF ++ "Root Containers:" ++ LF)
       :: map (fun c => EvPrintf (report_line c)) roots
       ++ EvPrintf (LF ++ "Containers with Errors:" ++ LF)
       :: map (fun c => EvPrintf (report_line c)) errs).
Proof.
  unfold print_report, bind, Println. cbn. rewrite !print_loop_run. cbn.
  reflexivity.
Qed.

Lemma main_run (w : World) :
  let a := authenticateToCluster host w in
  main host w =
  match fst (fst a) with
  | Failed err =>
      (1, snd (fst a),
       snd a ++ [HvCluster (EvPrintf ("Error authenticating to the cluster: " ++ err ++ LF))])
  | Served (clientset, config) =>
      let f := findContainersWithErrors (session host clientset config) (snd (fst a)) in
      match snd (result f) with
      | Some err =>
          (1, world_after f,
           snd a ++ map HvCluster (trace f)
           ++ [HvCluster (EvPrintf ("Error finding containers: " ++ err ++ LF))])
      | None =>
          (0, world_after f,
           snd a ++ map HvCluster (trace f)
           ++ map HvCluster (trace (print_report (fst (fst (result f))) (snd (fst (result f)))
                                      (world_after f))))
      end
  end.
Proof.
  cbv zeta. unfold main, pbind at 1.
  destruct (authenticateToCluster host w) as [[[[clientset config] | err] w1] t1];
    cbn -[print_report].
  - unfold pbind, lift, pret.
    destruct (findContainersWithErrors (session host clientset config) w1)
      as [[[[roots errs] [err|]] w2] t2]; cbn -[print_report].
    + rewrite ?app_nil_r. reflexivity.
    + rewrite !print_report_run. cbn. rewrite ?app_nil_r. reflexivity.
  - reflexivity.
Qed.

Lemma stdout_of_cluster (tr : list Event) :
  flat_map stdout_of (map HvCluster tr) = flat_map printed tr.
Proof. induction tr as [|e tr IH]; cbn; [reflexivity | now rewrite IH]. Qed.

Lemma report_lines_printed (l : list ContainerInfo) :
  flat_map printed (map (fun c => EvPrintf (report_line c)) l) = map report_line l.
Proof.
  induction l as [|c l IH]; [reflexivity|].
  cbn [map flat_map printed app]. now rewrite IH.
Qed.

Lemma report_lines_quiet (l : list ContainerInfo) :
  flat_map cluster_calls (map HvCluster (map (fun c => EvPrintf (report_line c)) l)) = [].
Proof. induction l as [|c l IH]; cbn; [reflexivity | exact IH]. Qed.

(** The report is printing only, and prints the two headings with the
    lines of the two lists under them. *)
Lemma print_report_quiet (roots errs : list ContainerInfo) (w : World) :
  flat_map cluster_calls (map HvCluster (trace (print_report roots errs w))) = [].
Proof.
  rewrite print_report_run. cbn [trace snd map flat_map cluster_calls app].
  rewrite map_app, flat_map_app. cbn [map flat_map cluster_calls app].
  now rewrite !report_lines_quiet.
Qed.

Lemma print_report_printed (roots errs : list ContainerInfo) (w : World) :
  flat_map printed (trace (print_report roots errs w))
  = [(LF ++ "Root Containers:" ++ LF)%string]
    ++ map report_line roots
    ++ [(LF ++ "Containers with Errors:" ++ LF)%string]
    ++ map report_line errs.
Proof.
  rewrite print_report_run. cbn [trace snd flat_map printed app].
  rewrite flat_map_app. cbn [flat_map printed app].
  now rewrite !report_lines_printed.
Qed.

End ProcessRuns.

Lemma findContainersWithErrors_error {World : Type} (api : ClusterAPI World) (w : World) :
  snd (result (findContainersWithErrors api w)) = failure (fst (Namespaces_List api w)).
Proof.
  rewrite findContainersWithErrors_run. cbv zeta.
  now destruct (fst (Namespaces_List api w)).
Qed.

(** X10: the exit status of the process is 1 when the authentication fails or
    the namespace listing fails, and 0 otherwise, whatever else failed
    during the walk.  A process whose authentication fails makes no call on
    the cluster; otherwise the calls made on the cluster are those of the
    one traversal, the report adding none. *)
Theorem main_exit_status :
  forall (World Config Clientset : Type) (host : Host World Config Clientset) (w : World),
    let a := authenticateToCluster host w in
    match fst (fst a) with
    | Failed err =>
        fst (fst (main host w)) = 1
        /\ flat_map cluster_calls (snd (main host w)) = []
    | Served (clientset, config) =>
        let api := session host clientset config in
        fst (fst (main host w))
          = match fst (Namespaces_List api (snd (fst a))) with
            | Failed _ => 1
            | Served _ => 0
            end
        /\ flat_map cluster_calls (snd (main host w))
           = flat_map cluster_calls
               (map HvCluster (observed (findContainersWithErrors api) (snd (fst a))))
    end.
Proof.
  intros World Config Clientset host w. cbv zeta.
  rewrite main_run. cbv zeta.
  destruct (authenticateToCluster_quiet host w) as [_ Q].
  destruct (fst (fst (authenticateToCluster host w))) as [[clientset config] | err].
  - unfold observed.
    pose proof (findContainersWithErrors_error (session host clientset config)
                  (snd (fst (authenticateToCluster host w)))) as E.
    destruct (snd (result (findContainersWithErrors (session host clientset config) _)))
      as [err|];
      destruct (fst (Namespaces_List (session host clientset config) _)) as [items | e];
      try discriminate E; cbn [fst snd]; (split; [reflexivity|]).
    + rewrite !flat_map_app, Q. cbn [app flat_map map cluster_calls].
      now rewrite app_nil_r.
    + rewrite !flat_map_app, Q, print_report_quiet. cbn [app].
      now rewrite app_nil_r.
  - cbn [fst snd]. split; [reflexivity|]. rewrite flat_map_app, Q. reflexivity.
Qed.

(** X11: what the process writes to standard output, all of it and in order:
    the one line of a failed authentication; or else the lines of the
    failures met during the walk, followed by the line of a failed namespace
    listing, or by the report: the heading of the root containers, one line
    per record of rootContainers, the heading of the containers with errors,
    one line per record of errorContainers. *)
Theorem main_output :
  forall (World Config Clientset : Type) (host : Host World Config Clientset) (w : World),
    let a := authenticateToCluster host w in
    flat_map stdout_of (snd (main host w))
    = match fst (fst a) with
      | Failed err => [("Error authenticating to the cluster: " ++ err ++ LF)%string]
      | Served (clientset, config) =>
          let f := findContainersWithErrors (session host clientset config) (snd (fst a)) in
          flat_map failure_line (trace f)
          ++ match snd (result f) with
             | Some err => [("Error finding containers: " ++ err ++ LF)%string]
             | None =>
                 [(LF ++ "Root Containers:" ++ LF)%string]
                 ++ map report_line (fst (fst (result f)))
                 ++ [(LF ++ "Containers with Errors:" ++ LF)%string]
                 ++ map report_line (snd (fst (result f)))
             end
      end.
Proof.
  intros World Config Clientset host w. cbv zeta.
  rewrite main_run. cbv zeta.
  destruct (authenticateToCluster_quiet host w) as [Q _].
  destruct (fst (fst (authenticateToCluster host w))) as [[clientset config] | err].
  - rewrite <- findContainersWithErrors_prints.
    destruct (snd (result (findContainersWithErrors (session host clientset config) _)))
      as [err|]; cbn -[print_report].
    + rewrite !flat_map_app, Q, stdout_of_cluster. reflexivity.
    + rewrite !flat_map_app, Q, !stdout_of_cluster, print_report_printed.
      reflexivity.
  - cbn. rewrite flat_map_app, Q. reflexivity.
Qed.

Example main_on_mixed_cluster :
  fst (fst (main (static_host None mixed_cluster) tt)) = 0
  /\ flat_map stdout_of (snd (main (static_host None mixed_cluster) tt))
     = [ ("Error listing pods in namespace locked: pods is forbidden" ++ LF)%string;
         ("Error listing containers in pod vanished: pod not found" ++ LF)%string;
         ("Error running 'whoami' command in container distroless: "
          ++ "executable file not found" ++ LF)%string;
         (LF ++ "Root Containers:" ++ LF)%string;
         ("Namespace: apps, Pod: web, Container: sidecar, CommandExec: whoami" ++ LF)%string;
         ("Namespace: batch, Pod: job, Container: worker, CommandExec: whoami" ++ LF)%string;
         (LF ++ "Containers with Errors:" ++ LF)%string;
         ("Namespace: apps, Pod: web, Container: distroless, CommandExec: whoami"
          ++ LF)%string ].
Proof. split; vm_compute; reflexivity. Qed.

Example main_without_kubeconfig :
  main (static_host (Some "no such file") mixed_cluster) tt
  = (1, tt,
     [ HvBuildConfigFromFlags "" "/home/auditor/.kube/config" (Some "no such file");
       HvCluster (EvPrintf ("Error authenticating to the cluster: no such file" ++ LF)) ]).
Proof. vm_compute. reflexivity. Qed.

(** ** At most once *)


Section AtMostOnce.

Variable World : Type.
Variable api : ClusterAPI World.

Hypothesis namespaces_unique :
  forall w items, fst (Namespaces_List api w) = Served items -> NoDup (map ns_Name items).
Hypothesis pods_unique :
  forall namespace w items,
    fst (Pods_List api namespace w) = Served items -> NoDup (map pod_Name items).
Hypothesis containers_unique :
  forall namespace pod w p,
    fst (Pods_Get api namespace pod w) = Served p ->
    NoDup (map c_Name (spec_Containers (pod_Spec p))).






End AtMostOnce.


